(** * Hold That Thought: the three serverless handlers

    A shallow embedding of

    - [backend/activity-aggregator/index.py]   (module [ActivityAggregator]),
    - [backend/notification-processor/index.py] (module [NotificationProcessor]),
    - [backend/lambdas/amplify-deployer/index.py] (module [AmplifyDeployer]),

    together with the fragment of the Python runtime they rely on (module
    [Py]): exceptions with [try]/[except], [print], dictionary subscripts,
    [str.lower], [str.split], the [in] test on strings and slices.

    Python code runs in a state-and-exception monad over a world that holds
    whatever the handler can observe or change: the profile table, the
    services' answers, the clock and standard output. *)

From Stdlib Require Import Ascii.
From stdpp Require Import gmap strings list fin_maps pretty.

(* ===================================================================== *)
(** * The Python fragment *)
(* ===================================================================== *)

Module Py.

(** Exceptions the handlers can meet.  [ClientError] stands for whatever
    a boto3 call raises (throttling, validation, missing table, ...);
    its argument is the text [str(e)] prints. *)
Inductive exn : Type :=
| KeyError (key : string)
| IndexError
| RuntimeError (msg : string)
| ClientError (msg : string).

(** [str(e)], as the f-strings of the handlers render an exception. *)
Definition str (e : exn) : string :=
  match e with
  | KeyError key => "'" +:+ key +:+ "'"
  | IndexError => "list index out of range"
  | RuntimeError msg => msg
  | ClientError msg => msg
  end.

Inductive result (A : Type) : Type :=
| Ok (a : A)
| Raise (e : exn).
Arguments Ok {A} a.
Arguments Raise {A} e.

(** A computation over a world [W]: an outcome and the world it leaves. *)
Definition M (W A : Type) : Type := W → result A * W.

Definition ret {W A} (a : A) : M W A := λ w, (Ok a, w).

Definition raise {W A} (e : exn) : M W A := λ w, (Raise e, w).

Definition bind {W A B} (m : M W A) (k : A → M W B) : M W B :=
  λ w, match m w with
       | (Ok a, w') => k a w'
       | (Raise e, w') => (Raise e, w')
       end.

(** [try: body except Exception as e: handler e]. *)
Definition try_except {W A} (body : M W A) (handler : exn → M W A) : M W A :=
  λ w, match body w with
       | (Ok a, w') => (Ok a, w')
       | (Raise e, w') => handler e w'
       end.

(** [for x in xs: body x]; an exception leaves the loop. *)
Fixpoint for_each {W A} (xs : list A) (body : A → M W unit) : M W unit :=
  match xs with
  | [] => ret tt
  | x :: xs' => bind (body x) (λ _, for_each xs' body)
  end.

(** [d[k]] on a dictionary. *)
Definition getitem {W V} (d : gmap string V) (k : string) : M W V :=
  match d !! k with
  | Some v => ret v
  | None => raise (KeyError k)
  end.

(** [l[i]] on a list. *)
Definition index {W A} (l : list A) (i : nat) : M W A :=
  match l !! i with
  | Some v => ret v
  | None => raise IndexError
  end.

(** [d.get(k, default)]. *)
Definition get {V} (d : gmap string V) (k : string) (default : V) : V :=
  match d !! k with
  | Some v => v
  | None => default
  end.

(** ** Strings *)

(** [c.lower()] on one ASCII character; other bytes are left alone. *)
Definition lower_ascii (c : ascii) : ascii :=
  let n := nat_of_ascii c in
  if (65 <=? n)%nat && (n <=? 90)%nat then ascii_of_nat (n + 32) else c.

(** [s.lower()]. *)
Fixpoint lower (s : string) : string :=
  match s with
  | EmptyString => EmptyString
  | String c s' => String (lower_ascii c) (lower s')
  end.

(** [s.startswith(p)]. *)
Fixpoint startswith (p s : string) : bool :=
  match p, s with
  | EmptyString, _ => true
  | String a p', String b s' => if decide (a = b) then startswith p' s' else false
  | String _ _, EmptyString => false
  end.

(** [sub in s]. *)
Fixpoint contains (sub s : string) : bool :=
  startswith sub s ||
  match s with
  | EmptyString => false
  | String _ s' => contains sub s'
  end.

(** [s.split(sep)] for a non-empty [sep] (Python raises [ValueError] on
    an empty one; the handlers only split on the literals [':table/'] and
    ['/']).  [skip] counts the characters of a separator just matched
    that are still to be passed over; [cur] is the piece being read. *)
Fixpoint split_from (sep : string) (skip : nat) (cur : string) (s : string)
  : list string :=
  match s with
  | EmptyString => [cur]
  | String c s' =>
      match skip with
      | S k => split_from sep k cur s'
      | O =>
          if startswith sep s
          then cur :: split_from sep (String.length sep - 1) EmptyString s'
          else split_from sep 0 (cur +:+ String c EmptyString) s'
      end
  end.

Definition split (sep s : string) : list string := split_from sep 0 EmptyString s.

(** [sep.join(l)]. *)
Fixpoint join (sep : string) (l : list string) : string :=
  match l with
  | [] => EmptyString
  | [x] => x
  | x :: l' => x +:+ sep +:+ join sep l'
  end.

(** [s[:n]]. *)
Fixpoint slice_to (n : nat) (s : string) : string :=
  match n, s with
  | S n', String c s' => String c (slice_to n' s')
  | _, _ => EmptyString
  end.

(** [s.endswith(p)]. *)
Fixpoint endswith (p s : string) : bool :=
  String.eqb p s ||
  match s with
  | EmptyString => false
  | String _ s' => endswith p s'
  end.

End Py.

Module PyNotations.
Notation "x <- m ;; k" := (Py.bind m (λ x, k))
  (at level 100, m at next level, right associativity, only parsing).
Notation "m ;;; k" := (Py.bind m (λ _, k))
  (at level 100, right associativity, only parsing).
End PyNotations.

(* ===================================================================== *)
(** * DynamoDB stream events *)
(* ===================================================================== *)

Module Stream.
Import Py PyNotations.

(** A typed attribute value such as [{'S': 'user-1'}]: type tag to value. *)
Abbreviation AttributeValue := (gmap string string).

(** An item image such as [record['dynamodb']['NewImage']]. *)
Abbreviation Image := (gmap string (gmap string string)).

(** One stream record.  The records are Python dictionaries, so a key may
    be missing; of [record['dynamodb']] only the image-valued entries
    (['Keys'], ['NewImage'], ['OldImage']) are kept. *)
Record record : Type := {
  eventName : option string;
  eventSourceARN : option string;
  dynamodb : option (gmap string (gmap string (gmap string string)))
}.

(** The Lambda event: [event['Records']]. *)
Record event : Type := { Records : option (list record) }.

(** What both handlers return. *)
Record response : Type := { statusCode : Z; body : string }.

(** [record[k]] for a key of the record that may be missing. *)
Definition field {W A} (k : string) (o : option A) : M W A :=
  match o with
  | Some v => ret v
  | None => raise (KeyError k)
  end.

(** [record['eventSourceARN'].split(':table/')[1].split('/')[0]], the
    first line of [process_insert_event] in both handlers. *)
Definition table_name_of {W} (r : record) : M W string :=
  arn <- field "eventSourceARN" (eventSourceARN r) ;;
  rest <- index (split ":table/" arn) 1 ;;
  index (split "/" rest) 0.

(** [record['dynamodb']['NewImage']], their second line. *)
Definition new_image_of {W} (r : record) : M W Image :=
  ddb <- field "dynamodb" (dynamodb r) ;;
  getitem ddb "NewImage".

(** The arm of the [if]/[elif] chain of [process_insert_event] that a
    table name selects; [Ignored] when no condition holds. *)
Inductive branch : Type := Comment | Message | Reaction | Ignored.

#[global] Instance branch_eq_dec : EqDecision branch.
Proof. solve_decision. Defined.

End Stream.

(* ===================================================================== *)
(** * backend/activity-aggregator/index.py *)
(* ===================================================================== *)

Module ActivityAggregator.
Import Py PyNotations Stream.

(** ** The profile store *)

(** A row of the UserProfiles table, as far as this handler writes it. *)
Record Profile : Type := {
  commentCount : option Z;
  lastActive : option string
}.

(** The two update expressions the handler sends:
    ['ADD commentCount :inc'] and ['SET lastActive = :now']. *)
Inductive UpdateExpression : Type :=
| ADD_commentCount (inc : Z)
| SET_lastActive (now : string).

(** One [table.update_item(Key={'userId': ...}, ...)] call. *)
Record UpdateItem : Type := {
  Key_userId : string;
  Expression : UpdateExpression
}.

Record World : Type := {
  table : gmap string Profile;
  (** the [update_item] calls issued so far, oldest first *)
  requests : list UpdateItem;
  (** whether the store raises on its n-th call, and with which message *)
  store_fault : nat → option string;
  (** [datetime.utcnow().isoformat()] at the n-th reading of the clock *)
  utcnow_isoformat : nat → string;
  clock_reads : nat;
  (** lines printed so far, oldest first *)
  stdout : list string
}.

Definition print (line : string) : M World unit :=
  λ w, (Ok tt,
        {| table := table w; requests := requests w;
           store_fault := store_fault w;
           utcnow_isoformat := utcnow_isoformat w;
           clock_reads := clock_reads w;
           stdout := stdout w ++ [line] |}).

(** Reading the clock. *)
Definition datetime_utcnow_isoformat : M World string :=
  λ w, (Ok (utcnow_isoformat w (clock_reads w)),
        {| table := table w; requests := requests w;
           store_fault := store_fault w;
           utcnow_isoformat := utcnow_isoformat w;
           clock_reads := S (clock_reads w);
           stdout := stdout w |}).

(** What DynamoDB does with an accepted update: both expressions create
    the row when it is missing; [ADD] starts a missing number at 0. *)
Definition apply_update (req : UpdateItem) (t : gmap string Profile)
  : gmap string Profile :=
  let old := default {| commentCount := None; lastActive := None |}
                     (t !! Key_userId req) in
  let new :=
    match Expression req with
    | ADD_commentCount inc =>
        {| commentCount := Some (default 0%Z (commentCount old) + inc)%Z;
           lastActive := lastActive old |}
    | SET_lastActive now =>
        {| commentCount := commentCount old; lastActive := Some now |}
    end in
  <[Key_userId req := new]> t.

(** [dynamodb.Table(USER_PROFILES_TABLE).update_item(...)]: the call is
    recorded; the store either raises or applies the update. *)
Definition update_item (req : UpdateItem) : M World unit :=
  λ w,
    let n := length (requests w) in
    match store_fault w n with
    | Some msg =>
        (Raise (ClientError msg),
         {| table := table w; requests := requests w ++ [req];
            store_fault := store_fault w;
            utcnow_isoformat := utcnow_isoformat w;
            clock_reads := clock_reads w; stdout := stdout w |})
    | None =>
        (Ok tt,
         {| table := apply_update req (table w);
            requests := requests w ++ [req];
            store_fault := store_fault w;
            utcnow_isoformat := utcnow_isoformat w;
            clock_reads := clock_reads w; stdout := stdout w |})
    end.

(** ** The handler *)

Definition increment_comment_count (user_id : string) : M World unit :=
  try_except
    (update_item {| Key_userId := user_id; Expression := ADD_commentCount 1 |} ;;;
     print ("Incremented commentCount for user " +:+ user_id))
    (λ e, print ("Error incrementing comment count for " +:+ user_id
                 +:+ ": " +:+ str e)).

Definition update_last_active (user_id : string) : M World unit :=
  try_except
    (now <- datetime_utcnow_isoformat ;;
     update_item {| Key_userId := user_id;
                    Expression := SET_lastActive (now +:+ "Z") |} ;;;
     print ("Updated lastActive for user " +:+ user_id))
    (λ e, print ("Error updating lastActive for " +:+ user_id
                 +:+ ": " +:+ str e)).

(** The conditions of the [if]/[elif] chain, in the order of the source. *)
Definition branch_of (table_name : string) : branch :=
  let t := lower table_name in
  if contains "comment" t && negb (contains "reaction" t) then Comment
  else if contains "message" t then Message
  else if contains "reaction" t then Reaction
  else Ignored.

Definition process_insert_event (r : record) : M World unit :=
  table_name <- table_name_of r ;;
  new_image <- new_image_of r ;;
  match branch_of table_name with
  | Comment =>
      userId <- getitem new_image "userId" ;;
      user_id <- getitem userId "S" ;;
      increment_comment_count user_id ;;;
      update_last_active user_id
  | Message =>
      let sender_id := get new_image "senderId" ∅ !! "S" in
      match sender_id with
      | Some s =>
          (* [if sender_id:] is false on the empty string *)
          if String.eqb s "" then ret tt else update_last_active s
      | None => ret tt
      end
  | Reaction =>
      userId <- getitem new_image "userId" ;;
      user_id <- getitem userId "S" ;;
      update_last_active user_id
  | Ignored => ret tt
  end.

(** The body of the handler's loop: the [try] statement around one record. *)
Definition try_record (r : record) : M World unit :=
  try_except
    (name <- field "eventName" (eventName r) ;;
     if String.eqb name "INSERT" then process_insert_event r else ret tt)
    (λ e, print ("Error processing record: " +:+ str e)).

Definition lambda_handler (ev : event) : M World response :=
  records <- field "Records" (Records ev) ;;
  print ("Processing " +:+ pretty (length records) +:+ " records") ;;;
  for_each records try_record ;;;
  ret {| statusCode := 200; body := "Activity stats updated" |}.

End ActivityAggregator.

(* ===================================================================== *)
(** * backend/notification-processor/index.py *)
(* ===================================================================== *)

Module NotificationProcessor.
Import Py PyNotations Stream.

(** One [ses.send_email(...)] call. *)
Record Email : Type := {
  Source : string;
  ToAddresses : list string;
  Subject : string;
  Html : string
}.

(** The answer of SES to a call: a message id, or an exception. *)
Inductive SesReply : Type :=
| Accepted (MessageId : string)
| Rejected (msg : string).

Record World : Type := {
  (** the environment variable [SES_FROM_EMAIL], when set *)
  env_SES_FROM_EMAIL : option string;
  (** the [ses.send_email] calls issued so far, oldest first *)
  outbox : list Email;
  (** the answer of SES to its n-th call *)
  ses_reply : nat → SesReply;
  (** lines printed so far, oldest first *)
  stdout : list string
}.

Definition SES_FROM_EMAIL (w : World) : string :=
  default "noreply@holdthatthought.family" (env_SES_FROM_EMAIL w).

Definition DEBOUNCE_MINUTES : Z := 15.

Definition print (line : string) : M World unit :=
  λ w, (Ok tt,
        {| env_SES_FROM_EMAIL := env_SES_FROM_EMAIL w; outbox := outbox w;
           ses_reply := ses_reply w; stdout := stdout w ++ [line] |}).

(** [ses.send_email(Source=SES_FROM_EMAIL, ...)], giving
    [response['MessageId']]. *)
Definition ses_send_email (to_email subject body_html : string) : M World string :=
  λ w,
    let w' := {| env_SES_FROM_EMAIL := env_SES_FROM_EMAIL w;
                 outbox := outbox w ++ [{| Source := SES_FROM_EMAIL w;
                                           ToAddresses := [to_email];
                                           Subject := subject;
                                           Html := body_html |}];
                 ses_reply := ses_reply w; stdout := stdout w |} in
    match ses_reply w (length (outbox w)) with
    | Accepted message_id => (Ok message_id, w')
    | Rejected msg => (Raise (ClientError msg), w')
    end.

Definition send_email (to_email subject body_html : string) : M World bool :=
  try_except
    (message_id <- ses_send_email to_email subject body_html ;;
     print ("Email sent to " +:+ to_email +:+ ": " +:+ message_id) ;;;
     ret true)
    (λ e, print ("Error sending email to " +:+ to_email +:+ ": " +:+ str e) ;;;
          ret false).

Definition should_send_notification (user_id event_type : string) : bool := true.

Definition process_comment_notification (new_image : Image) : M World unit :=
  itemId <- getitem new_image "itemId" ;;
  item_id <- getitem itemId "S" ;;
  commentId <- getitem new_image "commentId" ;;
  comment_id <- getitem commentId "S" ;;
  userId <- getitem new_image "userId" ;;
  user_id <- getitem userId "S" ;;
  let user_name := get (get new_image "userName" ∅) "S" "Someone" in
  commentText <- getitem new_image "commentText" ;;
  comment_text <- getitem commentText "S" ;;
  let item_title := get (get new_image "itemTitle" ∅) "S" "a letter" in
  print ("New comment by " +:+ user_name +:+ " on " +:+ item_title +:+ ": "
         +:+ slice_to 50 comment_text +:+ "...").

Definition process_reaction_notification (new_image : Image) : M World unit :=
  commentId <- getitem new_image "commentId" ;;
  comment_id <- getitem commentId "S" ;;
  userId <- getitem new_image "userId" ;;
  user_id <- getitem userId "S" ;;
  print ("New reaction from " +:+ user_id +:+ " on comment " +:+ comment_id).

Definition process_message_notification (new_image : Image) : M World unit :=
  conversationId <- getitem new_image "conversationId" ;;
  conversation_id <- getitem conversationId "S" ;;
  senderId <- getitem new_image "senderId" ;;
  sender_id <- getitem senderId "S" ;;
  let sender_name := get (get new_image "senderName" ∅) "S" "Someone" in
  messageText <- getitem new_image "messageText" ;;
  message_text <- getitem messageText "S" ;;
  print ("New message from " +:+ sender_name +:+ ": "
         +:+ slice_to 50 message_text +:+ "...").

(** The conditions of the [if]/[elif] chain, in the order of the source. *)
Definition branch_of (table_name : string) : branch :=
  let t := lower table_name in
  if contains "comment" t then Comment
  else if contains "reaction" t then Reaction
  else if contains "message" t then Message
  else Ignored.

Definition process_insert_event (r : record) : M World unit :=
  table_name <- table_name_of r ;;
  new_image <- new_image_of r ;;
  match branch_of table_name with
  | Comment => process_comment_notification new_image
  | Reaction => process_reaction_notification new_image
  | Message => process_message_notification new_image
  | Ignored => ret tt
  end.

(** The body of the handler's loop: the [try] statement around one record. *)
Definition try_record (r : record) : M World unit :=
  try_except
    (name <- field "eventName" (eventName r) ;;
     if String.eqb name "INSERT" then process_insert_event r else ret tt)
    (λ e, print ("Error processing record: " +:+ str e)).

Definition lambda_handler (ev : event) : M World response :=
  records <- field "Records" (Records ev) ;;
  print ("Processing " +:+ pretty (length records) +:+ " records") ;;;
  for_each records try_record ;;;
  ret {| statusCode := 200; body := "Notifications processed" |}.

End NotificationProcessor.

(* ===================================================================== *)
(** * backend/lambdas/amplify-deployer/index.py *)
(* ===================================================================== *)

Module AmplifyDeployer.
Import Py PyNotations.

(** The calls the module makes on the services it drives. *)
Inductive ApiCall : Type :=
| S3_get_object (Bucket Key : string)
| Amplify_create_deployment (appId branchName : string)
| Http_put (url body : string)
| Amplify_start_deployment (appId branchName jobId : string)
| Amplify_get_job (appId branchName jobId : string).

(** The services behind those calls.  A deployment job is named by
    application id, branch name and job id. *)
Record Services : Type := {
  (** object storage: bucket and key to content *)
  s3_objects : gmap (string * string) string;
  (** the deployment service: the status of every job it knows *)
  jobs : gmap (string * string * string) string;
  (** what has been uploaded to which presigned URL *)
  uploads : gmap string string;
  (** the [(zipUploadUrl, jobId)] the deployment service hands out for a
      new deployment when it knows n jobs *)
  handout : nat → string * string
}.

Record World : Type := {
  services : Services;
  (** the calls issued so far, oldest first *)
  api_calls : list ApiCall;
  (** whether the n-th call fails in transit, and with which message *)
  api_fault : nat → option string;
  (** [helper.Data], carried from phase to phase *)
  helper_Data : gmap string string;
  (** whether the logger lets INFO lines through ([LOG_LEVEL]) *)
  info_enabled : bool;
  (** lines logged so far, oldest first *)
  log : list string
}.

Definition logger_info (line : string) : M World unit :=
  λ w, (Ok tt,
        {| services := services w; api_calls := api_calls w;
           api_fault := api_fault w; helper_Data := helper_Data w;
           info_enabled := info_enabled w;
           log := if info_enabled w then log w ++ [line] else log w |}).

(** [helper.Data[k] = v]. *)
Definition helper_Data_set (k v : string) : M World unit :=
  λ w, (Ok tt,
        {| services := services w; api_calls := api_calls w;
           api_fault := api_fault w; helper_Data := <[k := v]> (helper_Data w);
           info_enabled := info_enabled w; log := log w |}).

(** A call on a service: it is recorded; unless it fails in transit the
    service answers and moves to its next state. *)
Definition call {A} (c : ApiCall) (serve : Services → result A * Services) : M World A :=
  λ w,
    match api_fault w (length (api_calls w)) with
    | Some msg =>
        (Raise (ClientError msg),
         {| services := services w; api_calls := api_calls w ++ [c];
            api_fault := api_fault w; helper_Data := helper_Data w;
            info_enabled := info_enabled w; log := log w |})
    | None =>
        let (answer, s') := serve (services w) in
        (answer,
         {| services := s'; api_calls := api_calls w ++ [c];
            api_fault := api_fault w; helper_Data := helper_Data w;
            info_enabled := info_enabled w; log := log w |})
    end.

(** [s3.get_object(Bucket, Key)["Body"].read()]. *)
Definition s3_get_object (bucket key : string) : M World string :=
  call (S3_get_object bucket key)
    (λ s, match s3_objects s !! (bucket, key) with
          | Some body => (Ok body, s)
          | None => (Raise (ClientError "NoSuchKey"), s)
          end).

(** [amplify.create_deployment(appId, branchName)], giving
    [(zipUploadUrl, jobId)]: the service creates the job. *)
Definition amplify_create_deployment (app_id branch_name : string)
  : M World (string * string) :=
  call (Amplify_create_deployment app_id branch_name)
    (λ s, let reply := handout s (size (jobs s)) in
          (Ok reply,
           {| s3_objects := s3_objects s;
              jobs := <[(app_id, branch_name, snd reply) := "CREATED"]> (jobs s);
              uploads := uploads s; handout := handout s |})).

(** [urllib.request.urlopen(Request(url, data, method="PUT"))]. *)
Definition http_put (url data : string) : M World unit :=
  call (Http_put url data)
    (λ s, (Ok tt,
           {| s3_objects := s3_objects s; jobs := jobs s;
              uploads := <[url := data]> (uploads s); handout := handout s |})).

(** [amplify.start_deployment(appId, branchName, jobId)]: the service
    queues the job. *)
Definition amplify_start_deployment (app_id branch_name job_id : string)
  : M World unit :=
  call (Amplify_start_deployment app_id branch_name job_id)
    (λ s, match jobs s !! (app_id, branch_name, job_id) with
          | Some _ =>
              (Ok tt,
               {| s3_objects := s3_objects s;
                  jobs := <[(app_id, branch_name, job_id) := "PENDING"]> (jobs s);
                  uploads := uploads s; handout := handout s |})
          | None => (Raise (ClientError "NotFoundException"), s)
          end).

(** [amplify.get_job(appId, branchName, jobId)], giving
    [response['job']['summary']['status']]: the service only answers. *)
Definition amplify_get_job (app_id branch_name job_id : string) : M World string :=
  call (Amplify_get_job app_id branch_name job_id)
    (λ s, match jobs s !! (app_id, branch_name, job_id) with
          | Some status => (Ok status, s)
          | None => (Raise (ClientError "NotFoundException"), s)
          end).

(** [create_or_update(event, context)]. *)
Definition create_or_update (event : gmap string (gmap string string)) : M World unit :=
  let props := get event "ResourceProperties" ∅ in
  app_id <- getitem props "AppId" ;;
  branch_name <- getitem props "BranchName" ;;
  source_bucket <- getitem props "SourceBucket" ;;
  source_key <- getitem props "SourceKey" ;;
  logger_info ("Downloading source from s3://" +:+ source_bucket +:+ "/"
               +:+ source_key) ;;;
  zip_data <- s3_get_object source_bucket source_key ;;
  logger_info ("Creating deployment for app " +:+ app_id +:+ ", branch "
               +:+ branch_name) ;;;
  deployment <- amplify_create_deployment app_id branch_name ;;
  let upload_url := fst deployment in
  let job_id := snd deployment in
  logger_info ("Uploading " +:+ pretty (String.length zip_data)
               +:+ " bytes to Amplify") ;;;
  http_put upload_url zip_data ;;;
  logger_info ("Starting deployment job " +:+ job_id) ;;;
  amplify_start_deployment app_id branch_name job_id ;;;
  helper_Data_set "JobId" job_id ;;;
  helper_Data_set "AppId" app_id ;;;
  helper_Data_set "BranchName" branch_name.

(** [poll(event, context)]; Python's [True] is [Some true], [None] is
    [None]. *)
Definition poll (event : gmap string (gmap string string)) : M World (option bool) :=
  let data := get event "CrHelperData" ∅ in
  app_id <- getitem data "AppId" ;;
  branch_name <- getitem data "BranchName" ;;
  job_id <- getitem data "JobId" ;;
  status <- amplify_get_job app_id branch_name job_id ;;
  logger_info ("Deployment status: " +:+ status) ;;;
  if String.eqb status "SUCCEED" then ret (Some true)
  else if bool_decide (status ∈ ["PENDING"; "PROVISIONING"; "RUNNING"])
       then ret None
       else raise (RuntimeError ("Deployment failed: " +:+ status)).

(** [delete(event, context)]. *)
Definition delete (event : gmap string (gmap string string)) : M World unit :=
  logger_info "Delete - no action required".

End AmplifyDeployer.

(* ===================================================================== *)
(** * Vocabulary of the statements *)
(* ===================================================================== *)

Module Observe.
Import Py Stream.

(** The table name [process_insert_event] extracts, when it can. *)
Definition extracted_table_name (r : record) : option string :=
  arn ← eventSourceARN r;
  rest ← split ":table/" arn !! 1;
  split "/" rest !! 0.

(** [record['dynamodb']['NewImage']], when present. *)
Definition new_image (r : record) : option Image :=
  ddb ← dynamodb r; ddb !! "NewImage".

(** [new_image['userId']['S']], when present. *)
Definition acting_user (r : record) : option string :=
  img ← new_image r; a ← img !! "userId"; a !! "S".

(** [new_image.get('senderId', {}).get('S')]. *)
Definition sender (r : record) : option string :=
  img ← new_image r; get img "senderId" ∅ !! "S".

(** The comment counter of a user in the profile table. *)
Definition counter (t : gmap string ActivityAggregator.Profile) (u : string)
  : option Z :=
  p ← t !! u; ActivityAggregator.commentCount p.

(** The last-active timestamp of a user in the profile table. *)
Definition last_active (t : gmap string ActivityAggregator.Profile) (u : string)
  : option string :=
  p ← t !! u; ActivityAggregator.lastActive p.

(** Two worlds of the activity updater that differ at most in what has
    been printed. *)
Definition same_store (w1 w2 : ActivityAggregator.World) : Prop :=
  ActivityAggregator.table w1 = ActivityAggregator.table w2
  ∧ ActivityAggregator.requests w1 = ActivityAggregator.requests w2
  ∧ ActivityAggregator.clock_reads w1 = ActivityAggregator.clock_reads w2
  ∧ ActivityAggregator.store_fault w1 = ActivityAggregator.store_fault w2
  ∧ ActivityAggregator.utcnow_isoformat w1 = ActivityAggregator.utcnow_isoformat w2.

(** A world of the activity updater after some more lines were printed. *)
Definition activity_printed (lines : list string) (w : ActivityAggregator.World)
  : ActivityAggregator.World :=
  {| ActivityAggregator.table := ActivityAggregator.table w;
     ActivityAggregator.requests := ActivityAggregator.requests w;
     ActivityAggregator.store_fault := ActivityAggregator.store_fault w;
     ActivityAggregator.utcnow_isoformat := ActivityAggregator.utcnow_isoformat w;
     ActivityAggregator.clock_reads := ActivityAggregator.clock_reads w;
     ActivityAggregator.stdout := ActivityAggregator.stdout w ++ lines |}.

(** A world of the notification dispatcher after some more lines were
    printed. *)
Definition dispatcher_printed (lines : list string) (w : NotificationProcessor.World)
  : NotificationProcessor.World :=
  {| NotificationProcessor.env_SES_FROM_EMAIL := NotificationProcessor.env_SES_FROM_EMAIL w;
     NotificationProcessor.outbox := NotificationProcessor.outbox w;
     NotificationProcessor.ses_reply := NotificationProcessor.ses_reply w;
     NotificationProcessor.stdout := NotificationProcessor.stdout w ++ lines |}.

(** A computation of the activity updater that neither reads nor
    depends on what has been printed. *)
Definition ignores_stdout {A} (m : M ActivityAggregator.World A) : Prop :=
  ∀ w1 w2, same_store w1 w2 →
           fst (m w1) = fst (m w2) ∧ same_store (snd (m w1)) (snd (m w2)).

(** The first request of a comment event, and the second one at time [now]. *)
Definition add_request (u : string) : ActivityAggregator.UpdateItem :=
  {| ActivityAggregator.Key_userId := u;
     ActivityAggregator.Expression := ActivityAggregator.ADD_commentCount 1 |}.

Definition set_request (u now : string) : ActivityAggregator.UpdateItem :=
  {| ActivityAggregator.Key_userId := u;
     ActivityAggregator.Expression := ActivityAggregator.SET_lastActive now |}.

(** The timestamp the next [update_last_active] will write. *)
Definition next_timestamp (w : ActivityAggregator.World) : string :=
  ActivityAggregator.utcnow_isoformat w (ActivityAggregator.clock_reads w) +:+ "Z".

(** What the store makes of its [i]-th call: the update, unless it raises. *)
Definition served (w : ActivityAggregator.World) (i : nat)
    (req : ActivityAggregator.UpdateItem)
    (t : gmap string ActivityAggregator.Profile)
  : gmap string ActivityAggregator.Profile :=
  match ActivityAggregator.store_fault w i with
  | None => ActivityAggregator.apply_update req t
  | Some _ => t
  end.

(** The identifiers a poll event carries: [event.get("CrHelperData", {})[k]]. *)
Definition carried (event : gmap string (gmap string string)) (k : string)
  : option string :=
  get event "CrHelperData" ∅ !! k.

(** The acknowledgements of the two handlers. *)
Definition activity_ack : response :=
  {| statusCode := 200; body := "Activity stats updated" |}.

Definition dispatcher_ack : response :=
  {| statusCode := 200; body := "Notifications processed" |}.

(** ** Vocabulary of the further properties *)

(** The requests [increment_comment_count] and [update_last_active] can
    send: 1 added to a comment counter, or a last-active timestamp ending
    in "Z". *)
Definition sent_by_handler (req : ActivityAggregator.UpdateItem) : bool :=
  match ActivityAggregator.Expression req with
  | ActivityAggregator.ADD_commentCount inc => bool_decide (inc = 1%Z)
  | ActivityAggregator.SET_lastActive now => endswith "Z" now
  end.

(** How many of the requests set a timestamp. *)
Fixpoint sets (reqs : list ActivityAggregator.UpdateItem) : nat :=
  match reqs with
  | [] => 0
  | req :: reqs' =>
      match ActivityAggregator.Expression req with
      | ActivityAggregator.ADD_commentCount _ => sets reqs'
      | ActivityAggregator.SET_lastActive _ => S (sets reqs')
      end
  end.

(** The requests add 1 each, and their timestamps are the successive
    readings of the clock of [w] from its [c]-th on, followed by "Z". *)
Fixpoint well_stamped (w : ActivityAggregator.World) (c : nat)
    (reqs : list ActivityAggregator.UpdateItem) : Prop :=
  match reqs with
  | [] => True
  | req :: reqs' =>
      match ActivityAggregator.Expression req with
      | ActivityAggregator.ADD_commentCount inc =>
          inc = 1%Z ∧ well_stamped w c reqs'
      | ActivityAggregator.SET_lastActive now =>
          now = ActivityAggregator.utcnow_isoformat w c +:+ "Z"
          ∧ well_stamped w (S c) reqs'
      end
  end.

(** What the store makes of a run of requests, the first of them being
    its [i]-th call. *)
Fixpoint replay (w : ActivityAggregator.World) (i : nat)
    (reqs : list ActivityAggregator.UpdateItem)
    (t : gmap string ActivityAggregator.Profile)
  : gmap string ActivityAggregator.Profile :=
  match reqs with
  | [] => t
  | req :: reqs' => replay w (S i) reqs' (served w i req t)
  end.

(** [w'] comes from [w] by at most [n] more requests: the request log is
    extended, the clock was read once per timestamp, the table is what the
    store made of the new requests, and nothing else of the store moved. *)
Definition grows (n : nat) (w w' : ActivityAggregator.World) : Prop :=
  ∃ reqs,
    ActivityAggregator.requests w' = ActivityAggregator.requests w ++ reqs
    ∧ length reqs ≤ n
    ∧ well_stamped w (ActivityAggregator.clock_reads w) reqs
    ∧ ActivityAggregator.clock_reads w'
      = ActivityAggregator.clock_reads w + sets reqs
    ∧ ActivityAggregator.table w'
      = replay w (length (ActivityAggregator.requests w)) reqs
          (ActivityAggregator.table w)
    ∧ ActivityAggregator.store_fault w' = ActivityAggregator.store_fault w
    ∧ ActivityAggregator.utcnow_isoformat w'
      = ActivityAggregator.utcnow_isoformat w.

(** A computation of the activity updater that sends at most [n] requests. *)
Definition bounded {A} (n : nat) (m : M ActivityAggregator.World A) : Prop :=
  ∀ w, grows n w (snd (m w)).

(** An insert into a comment table written by user [u]. *)
Definition comment_by (u : string) (r : record) : Prop :=
  eventName r = Some "INSERT"
  ∧ (∃ t, extracted_table_name r = Some t
          ∧ ActivityAggregator.branch_of t = Comment)
  ∧ acting_user r = Some u.

(** [img[k]['S']], when both subscripts succeed. *)
Definition attribute_S (img : Image) (k : string) : option string :=
  a ← img !! k; a !! "S".

(** [img.get(k, {}).get('S', default)]. *)
Definition attribute_S_or (img : Image) (k default : string) : string :=
  get (get img k ∅) "S" default.

(** [event.get("ResourceProperties", {})[k]], when present. *)
Definition resource_property (event : gmap string (gmap string string)) (k : string)
  : option string :=
  get event "ResourceProperties" ∅ !! k.

End Observe.

(* ===================================================================== *)
(** * Events and worlds of the repository's tests *)
(* ===================================================================== *)

Module Fixtures.
Import Py Stream.

Definition attr_S (v : string) : gmap string string := {[ "S" := v ]}.

Definition arn (table_name : string) : string :=
  "arn:aws:dynamodb:us-east-1:123456789012:table/" +:+ table_name
  +:+ "/stream/2024-01-01T00:00:00.000".

Definition stream_record (name table_name : string) (img : Image) : record :=
  {| eventName := Some name;
     eventSourceARN := Some (arn table_name);
     dynamodb := Some {[ "NewImage" := img ]} |}.

(** [dynamodb_stream_event_comment] *)
Definition comment_record : record :=
  stream_record "INSERT" "hold-that-thought-comments"
    {[ "itemId" := attr_S "/2015/christmas";
       "commentId" := attr_S "2025-01-15T10:00:00.000Z#abc";
       "userId" := attr_S "user-123";
       "commentText" := attr_S "Great letter!" ]}.

(** [dynamodb_stream_event_message] *)
Definition message_record : record :=
  stream_record "INSERT" "hold-that-thought-messages"
    {[ "conversationId" := attr_S "user-1#user-2";
       "messageId" := attr_S "2025-01-15T10:00:00.000Z#xyz";
       "senderId" := attr_S "user-456";
       "messageText" := attr_S "Hello!" ]}.

(** A message whose image has no sender. *)
Definition anonymous_message_record : record :=
  stream_record "INSERT" "hold-that-thought-messages"
    {[ "conversationId" := attr_S "user-1#user-2";
       "messageText" := attr_S "Hello!" ]}.

(** [dynamodb_stream_event_reaction] *)
Definition reaction_record : record :=
  stream_record "INSERT" "hold-that-thought-comment-reactions"
    {[ "commentId" := attr_S "2025-01-15T10:00:00.000Z#abc";
       "userId" := attr_S "user-789";
       "reactionType" := attr_S "like" ]}.

(** The record of [test_lambda_handler_skips_non_insert_events]. *)
Definition modify_record : record :=
  stream_record "MODIFY" "hold-that-thought-comments" {[ "userId" := attr_S "user-1" ]}.

(** A [REMOVE] record carries keys but no new image. *)
Definition remove_record : record :=
  {| eventName := Some "REMOVE";
     eventSourceARN := Some (arn "hold-that-thought-comments");
     dynamodb := Some {[ "Keys" := {[ "itemId" := attr_S "/2015/christmas" ]} ]} |}.

(** A comment record whose image lacks the user: processing it raises. *)
Definition broken_record : record :=
  stream_record "INSERT" "hold-that-thought-comments"
    {[ "commentText" := attr_S "Who wrote this?" ]}.

(** An insert into a table the handlers do not know. *)
Definition foreign_record : record :=
  stream_record "INSERT" "hold-that-thought-letters" {[ "userId" := attr_S "user-1" ]}.

(** A profile table holding one user, a store that answers every call,
    and a clock. *)
Definition activity_world : ActivityAggregator.World :=
  {| ActivityAggregator.table :=
       {[ "user-123" := {| ActivityAggregator.commentCount := Some 5%Z;
                           ActivityAggregator.lastActive := None |} ]};
     ActivityAggregator.requests := [];
     ActivityAggregator.store_fault := λ _, None;
     ActivityAggregator.utcnow_isoformat :=
       λ n, "2025-01-15T10:00:0" +:+ pretty n +:+ ".000000";
     ActivityAggregator.clock_reads := 0;
     ActivityAggregator.stdout := [] |}.

(** The same, but the store refuses its first call. *)
Definition flaky_world : ActivityAggregator.World :=
  {| ActivityAggregator.table := ActivityAggregator.table activity_world;
     ActivityAggregator.requests := [];
     ActivityAggregator.store_fault :=
       λ n, if decide (n = 0) then Some "ProvisionedThroughputExceededException"
            else None;
     ActivityAggregator.utcnow_isoformat :=
       ActivityAggregator.utcnow_isoformat activity_world;
     ActivityAggregator.clock_reads := 0;
     ActivityAggregator.stdout := [] |}.

Definition notification_world : NotificationProcessor.World :=
  {| NotificationProcessor.env_SES_FROM_EMAIL := Some "test@example.com";
     NotificationProcessor.outbox := [];
     NotificationProcessor.ses_reply := λ n, NotificationProcessor.Accepted (pretty n);
     NotificationProcessor.stdout := [] |}.

(** The properties of a create event, and the services before it: the
    bundle is in the bucket, no job exists yet. *)
Definition create_event : gmap string (gmap string string) :=
  {[ "ResourceProperties" :=
       {[ "AppId" := "d1a2b3"; "BranchName" := "main";
          "SourceBucket" := "artifacts"; "SourceKey" := "frontend.zip" ]} ]}.

Definition fresh_services : AmplifyDeployer.Services :=
  {| AmplifyDeployer.s3_objects := {[ ("artifacts", "frontend.zip") := "PK-bundle" ]};
     AmplifyDeployer.jobs := ∅;
     AmplifyDeployer.uploads := ∅;
     AmplifyDeployer.handout :=
       λ n, ("https://upload.example/" +:+ pretty (n + 7), pretty (n + 7)) |}.

Definition fresh_world : AmplifyDeployer.World :=
  {| AmplifyDeployer.services := fresh_services;
     AmplifyDeployer.api_calls := [];
     AmplifyDeployer.api_fault := λ _, None;
     AmplifyDeployer.helper_Data := ∅;
     AmplifyDeployer.info_enabled := true;
     AmplifyDeployer.log := [] |}.

(** The carried state of a poll, and a service that knows the job. *)
Definition poll_event : gmap string (gmap string string) :=
  {[ "CrHelperData" :=
       {[ "AppId" := "d1a2b3"; "BranchName" := "main"; "JobId" := "7" ]} ]}.

Definition deployer_world (status : string) : AmplifyDeployer.World :=
  {| AmplifyDeployer.services :=
       {| AmplifyDeployer.s3_objects := ∅;
          AmplifyDeployer.jobs := {[ ("d1a2b3", "main", "7") := status ]};
          AmplifyDeployer.uploads := ∅;
          AmplifyDeployer.handout := λ _, ("", "") |};
     AmplifyDeployer.api_calls := [];
     AmplifyDeployer.api_fault := λ _, None;
     AmplifyDeployer.helper_Data :=
       {[ "AppId" := "d1a2b3"; "BranchName" := "main"; "JobId" := "7" ]};
     AmplifyDeployer.info_enabled := true;
     AmplifyDeployer.log := [] |}.

(** The images of [test_process_comment_notification_with_missing_fields],
    [test_process_reaction_notification] and
    [test_process_message_notification_with_missing_fields]. *)
Definition comment_image : Image :=
  {[ "itemId" := attr_S "/2015/christmas";
     "commentId" := attr_S "2025-01-15T10:00:00.000Z#abc";
     "userId" := attr_S "user-123";
     "commentText" := attr_S "Great letter!" ]}.

Definition reaction_image : Image :=
  {[ "commentId" := attr_S "2025-01-15T10:00:00.000Z#abc";
     "userId" := attr_S "user-456" ]}.

Definition message_image : Image :=
  {[ "conversationId" := attr_S "user-1#user-2";
     "senderId" := attr_S "user-1";
     "messageText" := attr_S "Hello!" ]}.

End Fixtures.

(* ===================================================================== *)
(** * The Python fragment: facts *)
(* ===================================================================== *)

Example split_arn :
Py.split ":table/" "arn:aws:dynamodb:us-east-1:1:table/app-comments/stream/2024"
= ["arn:aws:dynamodb:us-east-1:1"; "app-comments/stream/2024"].
Proof. reflexivity. Qed.

Example split_slash : Py.split "/" "app-comments/stream/2024" = ["app-comments"; "stream"; "2024"].
Proof. reflexivity. Qed.

Example split_absent : Py.split ":table/" "no-table-here" = ["no-table-here"].
Proof. reflexivity. Qed.

Example lower_mixed : Py.lower "Hold-That-Thought_Comments9" = "hold-that-thought_comments9".
Proof. reflexivity. Qed.

Example endswith_Z : Py.endswith "Z" "2025-01-15T10:00:00Z" = true.
Proof. reflexivity. Qed.

Section PyFacts.
Import Py.

Lemma append_nil (s : string) : EmptyString +:+ s = s.
Proof. reflexivity. Qed.

Lemma append_cons (c : ascii) (s t : string) :
  String c s +:+ t = String c (s +:+ t).
Proof. reflexivity. Qed.

Lemma startswith_app (p s : string) :
  startswith p s = true ↔ ∃ rest, s = p +:+ rest.
Proof.
  revert s. induction p as [|a p IH]; intros s; cbn [startswith].
  - split; [intros _; by exists s | done].
  - destruct s as [|b s].
    + split; [done | intros [rest H]; discriminate H].
    + destruct (decide (a = b)) as [->|Hne].
      * rewrite IH. split; intros [rest H]; exists rest.
        -- by rewrite append_cons, H.
        -- rewrite append_cons in H. by injection H.
      * split; [done | intros [rest H]; rewrite append_cons in H;
                       injection H; congruence].
Qed.

(** [sub in s] holds exactly when [s] is [pre + sub + post]. *)
Lemma contains_app (sub s : string) :
  contains sub s = true ↔ ∃ pre post, s = pre +:+ sub +:+ post.
Proof.
  induction s as [|c s IH]; cbn [contains].
  - rewrite orb_false_r, startswith_app. split.
    + intros [rest H]. by exists EmptyString, rest.
    + intros [[|c pre] [post H]]; [by exists post | discriminate H].
  - rewrite orb_true_iff, startswith_app, IH. split.
    + intros [[rest H] | (pre & post & H)].
      * by exists EmptyString, rest.
      * exists (String c pre), post. by rewrite append_cons, H.
    + intros ([|c' pre] & post & H).
      * left. by exists post.
      * right. rewrite append_cons in H. injection H as -> H. by exists pre, post.
Qed.

Lemma endswith_app (p s : string) : endswith p (s +:+ p) = true.
Proof.
  induction s as [|c s IH].
  - rewrite append_nil. destruct p as [|a p]; cbn [endswith];
      by rewrite String.eqb_refl.
  - rewrite append_cons. cbn [endswith]. rewrite IH. apply orb_true_r.
Qed.

Lemma append_assoc (a b c : string) : (a +:+ b) +:+ c = a +:+ (b +:+ c).
Proof.
  induction a as [|x a IH]; [done|]. by rewrite !append_cons, IH.
Qed.

(** Passing over the rest of a matched separator. *)
Lemma split_from_skip (sep p cur rest : string) :
  split_from sep (String.length p) cur (p +:+ rest) = split_from sep 0 cur rest.
Proof.
  induction p as [|x p IH]; [done|]. rewrite append_cons. exact IH.
Qed.

Lemma split_from_nonempty (sep : string) (k : nat) (cur s : string) :
  split_from sep k cur s ≠ [].
Proof.
  revert k cur. induction s as [|c s IH]; intros k cur; cbn [split_from]; [done|].
  destruct k as [|k]; [|apply IH].
  destruct (startswith sep (String c s)); [done | apply IH].
Qed.

Lemma join_cons (sep x : string) (l : list string) :
  l ≠ [] → join sep (x :: l) = x +:+ sep +:+ join sep l.
Proof. by destruct l. Qed.

(** Splitting loses nothing: joining the pieces with the separator gives
    the string back. *)
Lemma join_split (sep s : string) :
  sep ≠ EmptyString → join sep (split sep s) = s.
Proof.
  intros Hsep. unfold split.
  enough (H : ∀ n s cur, String.length s ≤ n →
                         join sep (split_from sep 0 cur s) = cur +:+ s)
    by (by rewrite (H (String.length s) s EmptyString)).
  clear s. induction n as [|n IH]; intros s cur Hlen.
  - destruct s; [|simpl in Hlen; lia]. simpl.
    clear. induction cur as [|x cur IH]; [done|]. by rewrite append_cons, <- IH.
  - destruct s as [|c s].
    { simpl. clear. induction cur as [|x cur IH]; [done|].
      by rewrite append_cons, <- IH. }
    cbn [split_from]. destruct (startswith sep (String c s)) eqn:Hst.
    + apply startswith_app in Hst as [rest Hrest].
      destruct sep as [|c' sep']; [done|]. rewrite append_cons in Hrest.
      injection Hrest as <- ->.
      replace (String.length (String c sep') - 1) with (String.length sep')
        by (simpl; lia).
      rewrite split_from_skip, join_cons by apply split_from_nonempty.
      rewrite IH.
      * by rewrite append_nil, append_cons.
      * simpl in Hlen. clear -Hlen.
        assert (Happ : ∀ a b, String.length (a +:+ b)
                              = String.length a + String.length b).
        { induction a as [|x a IHa]; intros b; [done|].
          rewrite append_cons. simpl. by rewrite IHa. }
        rewrite Happ in Hlen. lia.
    + rewrite IH by (simpl in Hlen; lia).
      by rewrite append_assoc, append_cons, append_nil.
Qed.

(** The steps of the monad, as rewriting rules. *)
Lemma bind_ok {W A B} (m : M W A) (k : A → M W B) w a w' :
  m w = (Ok a, w') → bind m k w = k a w'.
Proof. unfold bind. by intros ->. Qed.

Lemma bind_raise {W A B} (m : M W A) (k : A → M W B) w e w' :
  m w = (Raise e, w') → bind m k w = (Raise e, w').
Proof. unfold bind. by intros ->. Qed.

Lemma for_each_app {W A} (xs ys : list A) (body : A → M W unit) w :
  (∀ x w0, fst (body x w0) = Ok tt) →
  for_each (xs ++ ys) body w = for_each ys body (snd (for_each xs body w)).
Proof.
  intros Hbody. revert w. induction xs as [|x xs IH]; intros w; simpl; [done|].
  unfold bind. specialize (Hbody x w).
  destruct (body x w) as [[[]|e] w1]; simpl in *; [apply IH | discriminate].
Qed.

End PyFacts.

(* ===================================================================== *)
(** * Stream records: facts *)
(* ===================================================================== *)

Section StreamFacts.
Import Py Stream Observe.
Context {W : Type}.

(** Extracting the table name reads the record and nothing else. *)
Lemma table_name_of_Some (r : record) (t : string) (w : W) :
  extracted_table_name r = Some t → table_name_of r w = (Ok t, w).
Proof.
  unfold extracted_table_name, table_name_of, field, index, bind, ret, raise.
  destruct (eventSourceARN r) as [arn|]; simpl; [|done].
  destruct (split ":table/" arn !! 1) as [rest|]; simpl; [|done].
  destruct (split "/" rest !! 0) as [t'|]; simpl; [|done].
  by intros [= ->].
Qed.

Lemma table_name_of_None (r : record) :
  extracted_table_name r = None → ∃ e, ∀ w : W, table_name_of r w = (Raise e, w).
Proof.
  unfold extracted_table_name, table_name_of, field, index, bind, ret, raise.
  destruct (eventSourceARN r) as [arn|]; simpl; [|by eexists].
  destruct (split ":table/" arn !! 1) as [rest|]; simpl; [|by eexists].
  destruct (split "/" rest !! 0) as [t'|]; simpl; [done | by eexists].
Qed.

Lemma new_image_of_Some (r : record) (img : Image) (w : W) :
  new_image r = Some img → new_image_of r w = (Ok img, w).
Proof.
  unfold new_image, new_image_of, field, getitem, bind, ret, raise.
  destruct (dynamodb r) as [ddb|]; simpl; [|done].
  destruct (ddb !! "NewImage") as [img'|]; simpl; [|done].
  by intros [= ->].
Qed.

Lemma new_image_of_None (r : record) :
  new_image r = None → ∃ e, ∀ w : W, new_image_of r w = (Raise e, w).
Proof.
  unfold new_image, new_image_of, field, getitem, bind, ret, raise.
  destruct (dynamodb r) as [ddb|]; simpl; [|by eexists].
  destruct (ddb !! "NewImage") as [img'|]; simpl; [done | by eexists].
Qed.

Lemma getitem_Some {V} (d : gmap string V) (k : string) (v : V) (w : W) :
  d !! k = Some v → getitem d k w = (Ok v, w).
Proof. unfold getitem. by intros ->. Qed.

Lemma getitem_None {V} (d : gmap string V) (k : string) (w : W) :
  d !! k = None → getitem d k w = (Raise (KeyError k), w).
Proof. unfold getitem. by intros ->. Qed.

End StreamFacts.

(* ===================================================================== *)
(** * The two classifiers *)
(* ===================================================================== *)

Section Classifiers.
Import Py Stream.

(** The activity updater never takes a reaction table for a comment
    table, and takes it for a reaction table unless its name also
    mentions messages. *)
Lemma activity_branch_of_reaction (t : string) :
  contains "reaction" (lower t) = true →
  ActivityAggregator.branch_of t
  = if contains "message" (lower t) then Message else Reaction.
Proof.
  intros H. unfold ActivityAggregator.branch_of. cbv zeta.
  rewrite H, andb_false_r. by destruct (contains "message" (lower t)).
Qed.

(** The notification dispatcher tests for comments first and without
    the exclusion. *)
Lemma notification_branch_of_comment (t : string) :
  contains "comment" (lower t) = true →
  NotificationProcessor.branch_of t = Comment.
Proof. intros H. unfold NotificationProcessor.branch_of. cbv zeta. by rewrite H. Qed.

(** Where the two classifiers agree: on every name without "reaction",
    and on the names with "reaction" but neither "comment" nor "message". *)
Lemma branch_of_agree (t : string) :
  ActivityAggregator.branch_of t = NotificationProcessor.branch_of t
  ↔ contains "reaction" (lower t) = false
    ∨ (contains "comment" (lower t) = false
       ∧ contains "message" (lower t) = false).
Proof.
  unfold ActivityAggregator.branch_of, NotificationProcessor.branch_of. cbv zeta.
  destruct (contains "comment" (lower t)), (contains "message" (lower t)),
    (contains "reaction" (lower t)); simpl;
    (split; [intros H; try discriminate H; auto | intros [H|[H1 H2]]; congruence]).
Qed.

(** C1 (fails on the code).  The claim: an insert event whose table name
    contains "reaction" goes to the reaction branch in both handlers, and
    both classify every name alike.  On the reaction table of the
    repository's own tests, "hold-that-thought-comment-reactions", the
    activity updater takes the reaction branch but the notification
    dispatcher takes the comment branch: it reads the comment fields of
    the reaction image and raises [KeyError('itemId')], where the activity
    updater sets the last-active timestamp of the reacting user. *)
Theorem reaction_table_classified_apart :
  let t := "hold-that-thought-comment-reactions" in
  Observe.extracted_table_name Fixtures.reaction_record = Some t
  ∧ contains "reaction" (lower t) = true
  ∧ ActivityAggregator.branch_of t = Reaction
  ∧ NotificationProcessor.branch_of t = Comment
  ∧ NotificationProcessor.process_insert_event
      Fixtures.reaction_record Fixtures.notification_world
    = (Raise (KeyError "itemId"), Fixtures.notification_world)
  ∧ ActivityAggregator.requests
      (snd (ActivityAggregator.process_insert_event
              Fixtures.reaction_record Fixtures.activity_world))
    = [ {| ActivityAggregator.Key_userId := "user-789";
           ActivityAggregator.Expression :=
             ActivityAggregator.SET_lastActive "2025-01-15T10:00:00.000000Z" |} ].
Proof. vm_compute. by repeat split. Qed.

(** In the activity updater a name with both "message" and "reaction"
    goes to the message branch, in the dispatcher to the reaction branch. *)
Example message_reactions_branches :
  ActivityAggregator.branch_of "message-reactions" = Message
  ∧ NotificationProcessor.branch_of "message-reactions" = Reaction.
Proof. by vm_compute. Qed.

End Classifiers.

(* ===================================================================== *)
(** * The deployment poller *)
(* ===================================================================== *)

Section Poller.
Import Py AmplifyDeployer Observe.

(** The status query appends itself to the calls and changes nothing else. *)
Lemma amplify_get_job_world (a b j : string) (w : World) :
  snd (amplify_get_job a b j w)
  = {| services := services w; api_calls := api_calls w ++ [Amplify_get_job a b j];
       api_fault := api_fault w; helper_Data := helper_Data w;
       info_enabled := info_enabled w; log := log w |}.
Proof.
  unfold amplify_get_job, call.
  destruct (api_fault w _); [done|]. by destruct (jobs (services w) !! _).
Qed.

(** What [poll] does once the three identifiers are found. *)
Lemma poll_unfold (event : gmap string (gmap string string)) (a b j : string) (w : World) :
  carried event "AppId" = Some a →
  carried event "BranchName" = Some b →
  carried event "JobId" = Some j →
  poll event w
  = match amplify_get_job a b j w with
    | (Ok status, w1) =>
        let w2 := snd (logger_info ("Deployment status: " +:+ status) w1) in
        if String.eqb status "SUCCEED" then (Ok (Some true), w2)
        else if bool_decide (status ∈ ["PENDING"; "PROVISIONING"; "RUNNING"])
             then (Ok None, w2)
             else (Raise (RuntimeError ("Deployment failed: " +:+ status)), w2)
    | (Raise e, w1) => (Raise e, w1)
    end.
Proof.
  unfold carried, poll, getitem. intros -> -> ->. unfold bind, ret, raise.
  destruct (amplify_get_job a b j w) as [[status|e] w1]; [|done].
  simpl. destruct (String.eqb status "SUCCEED"); [done|].
  by destruct (bool_decide _).
Qed.

(** C2.  One poll, three outcomes: when the status query answers
    "SUCCEED" the poll returns [True]; when it answers "PENDING",
    "PROVISIONING" or "RUNNING" the poll returns [None] and raises
    nothing; on any other answer it raises a [RuntimeError] whose message
    carries the status. *)
Theorem poll_outcome (event : gmap string (gmap string string))
    (a b j status : string) (w w1 : World) :
  carried event "AppId" = Some a →
  carried event "BranchName" = Some b →
  carried event "JobId" = Some j →
  amplify_get_job a b j w = (Ok status, w1) →
  let w2 := snd (logger_info ("Deployment status: " +:+ status) w1) in
  (status = "SUCCEED" → poll event w = (Ok (Some true), w2))
  ∧ (status ∈ ["PENDING"; "PROVISIONING"; "RUNNING"] →
     poll event w = (Ok None, w2))
  ∧ (status ≠ "SUCCEED" →
     status ∉ ["PENDING"; "PROVISIONING"; "RUNNING"] →
     poll event w = (Raise (RuntimeError ("Deployment failed: " +:+ status)), w2)).
Proof.
  intros Ha Hb Hj Hq w2. rewrite (poll_unfold event a b j w Ha Hb Hj), Hq.
  fold w2. repeat split.
  - by intros ->.
  - intros Hin. destruct (String.eqb_spec status "SUCCEED") as [->|_].
    + by repeat (apply elem_of_cons in Hin as [[=]|Hin]); apply elem_of_nil in Hin.
    + by rewrite bool_decide_eq_true_2.
  - intros Hne Hnin. destruct (String.eqb_spec status "SUCCEED") as [->|_]; [done|].
    by rewrite bool_decide_eq_false_2.
Qed.

Lemma poll_outcome_witness :
  fst (poll Fixtures.poll_event (Fixtures.deployer_world "SUCCEED")) = Ok (Some true)
  ∧ fst (poll Fixtures.poll_event (Fixtures.deployer_world "RUNNING")) = Ok None
  ∧ fst (poll Fixtures.poll_event (Fixtures.deployer_world "FAILED"))
    = Raise (RuntimeError "Deployment failed: FAILED").
Proof.
  split; [|split].
  - destruct (poll_outcome Fixtures.poll_event "d1a2b3" "main" "7" "SUCCEED"
                (Fixtures.deployer_world "SUCCEED") _
                eq_refl eq_refl eq_refl eq_refl) as (H & _ & _).
    rewrite H; reflexivity.
  - destruct (poll_outcome Fixtures.poll_event "d1a2b3" "main" "7" "RUNNING"
                (Fixtures.deployer_world "RUNNING") _
                eq_refl eq_refl eq_refl eq_refl) as (_ & H & _).
    rewrite H; [reflexivity | repeat constructor].
  - destruct (poll_outcome Fixtures.poll_event "d1a2b3" "main" "7" "FAILED"
                (Fixtures.deployer_world "FAILED") _
                eq_refl eq_refl eq_refl eq_refl) as (_ & _ & H).
    rewrite H; [reflexivity | discriminate |].
    intros Hin. repeat (apply elem_of_cons in Hin as [Hin|Hin]; [discriminate Hin|]).
    by apply elem_of_nil in Hin.
Defined.

(** A poll leaves the world as it found it, or with one status query
    issued, or with that query issued and one line logged. *)
Lemma poll_world (event : gmap string (gmap string string)) (w : World) :
  snd (poll event w) = w
  ∨ ∃ a b j,
      carried event "AppId" = Some a ∧ carried event "BranchName" = Some b
      ∧ carried event "JobId" = Some j
      ∧ (snd (poll event w) = snd (amplify_get_job a b j w)
         ∨ ∃ line, snd (poll event w)
                   = snd (logger_info line (snd (amplify_get_job a b j w)))).
Proof.
  destruct (carried event "AppId") as [a|] eqn:Ha;
    [|left; unfold carried in Ha; unfold poll, getitem, bind, raise; by rewrite Ha].
  destruct (carried event "BranchName") as [b|] eqn:Hb;
    [|left; unfold carried in Ha, Hb; unfold poll, getitem, bind, ret, raise;
      by rewrite Ha, Hb].
  destruct (carried event "JobId") as [j|] eqn:Hj;
    [|left; unfold carried in Ha, Hb, Hj; unfold poll, getitem, bind, ret, raise;
      by rewrite Ha, Hb, Hj].
  right. exists a, b, j. repeat split; try done.
  rewrite (poll_unfold event a b j w Ha Hb Hj).
  destruct (amplify_get_job a b j w) as [[status|e] w1]; [|by left].
  right. exists ("Deployment status: " +:+ status). simpl.
  destruct (String.eqb status "SUCCEED"); [done|]. by destruct (bool_decide _).
Qed.

(** The outcome of a poll depends on the world only through the status
    the service holds for the job and through the fate of the one call. *)
Lemma poll_outcome_determined (event : gmap string (gmap string string)) (w w' : World) :
  jobs (services w') = jobs (services w) →
  api_fault w' (length (api_calls w')) = api_fault w (length (api_calls w)) →
  fst (poll event w') = fst (poll event w).
Proof.
  intros Hjobs Hfault.
  destruct (carried event "AppId") as [a|] eqn:Ha;
    [|unfold carried in Ha; unfold poll, getitem, bind, raise; by rewrite Ha].
  destruct (carried event "BranchName") as [b|] eqn:Hb;
    [|unfold carried in Ha, Hb; unfold poll, getitem, bind, ret, raise;
      by rewrite Ha, Hb].
  destruct (carried event "JobId") as [j|] eqn:Hj;
    [|unfold carried in Ha, Hb, Hj; unfold poll, getitem, bind, ret, raise;
      by rewrite Ha, Hb, Hj].
  rewrite !(poll_unfold event a b j _ Ha Hb Hj).
  unfold amplify_get_job, call. rewrite Hjobs, Hfault.
  destruct (api_fault w _); [done|].
  destruct (jobs (services w) !! _) as [status|]; [|done]. simpl.
  destruct (String.eqb status "SUCCEED"); [done|]. by destruct (bool_decide _).
Qed.

(** The sibling phase, for contrast: [create_or_update] on the services of
    the tests creates and queues a job and fills [helper.Data]; a poll with
    the data it emitted then finds the job pending. *)
Example create_then_poll :
  let w1 := snd (create_or_update Fixtures.create_event Fixtures.fresh_world) in
  fst (create_or_update Fixtures.create_event Fixtures.fresh_world) = Ok tt
  ∧ api_calls w1
    = [ S3_get_object "artifacts" "frontend.zip";
        Amplify_create_deployment "d1a2b3" "main";
        Http_put "https://upload.example/7" "PK-bundle";
        Amplify_start_deployment "d1a2b3" "main" "7" ]
  ∧ jobs (services w1) !! ("d1a2b3", "main", "7") = Some "PENDING"
  ∧ helper_Data w1 !! "JobId" = Some "7"
  ∧ fst (poll {[ "CrHelperData" := helper_Data w1 ]} w1) = Ok None.
Proof. by vm_compute. Qed.

(** Two polls in a row while the job runs: "continue" twice, two status
    queries, the services as they were. *)
Example poll_twice :
  let w0 := Fixtures.deployer_world "RUNNING" in
  let w1 := snd (poll Fixtures.poll_event w0) in
  let w2 := snd (poll Fixtures.poll_event w1) in
  fst (poll Fixtures.poll_event w0) = Ok None
  ∧ fst (poll Fixtures.poll_event w1) = Ok None
  ∧ services w2 = services w0
  ∧ api_calls w2 = [Amplify_get_job "d1a2b3" "main" "7";
                    Amplify_get_job "d1a2b3" "main" "7"]
  ∧ log w2 = ["Deployment status: RUNNING"; "Deployment status: RUNNING"].
Proof. by vm_compute. Qed.

(** C8.  A poll only observes: the services (the jobs among them) and the
    carried [helper.Data] are after it what they were before it; the only
    call it can issue is one status query; besides that it logs at most one
    line.  So a poll that answered "continue" and is invoked again, the
    service being reachable, answers "continue" again, and the services are
    still untouched. *)
Theorem poll_observes_only (event : gmap string (gmap string string)) (w : World) :
  let w' := snd (poll event w) in
  services w' = services w
  ∧ helper_Data w' = helper_Data w
  ∧ (api_calls w' = api_calls w
     ∨ ∃ a b j, api_calls w' = api_calls w ++ [Amplify_get_job a b j])
  ∧ (log w' = log w ∨ ∃ line, log w' = log w ++ [line])
  ∧ (fst (poll event w) = Ok None →
     api_fault w' (length (api_calls w')) = None →
     fst (poll event w') = Ok None ∧ services (snd (poll event w')) = services w).
Proof.
  assert (Hframe : ∀ v, services (snd (poll event v)) = services v
                        ∧ helper_Data (snd (poll event v)) = helper_Data v
                        ∧ (api_calls (snd (poll event v)) = api_calls v
                           ∨ ∃ a b j, api_calls (snd (poll event v))
                                      = api_calls v ++ [Amplify_get_job a b j])
                        ∧ (log (snd (poll event v)) = log v
                           ∨ ∃ line, log (snd (poll event v)) = log v ++ [line])).
  { intros v.
    destruct (poll_world event v) as [->|(a & b & j & _ & _ & _ & [->| [line ->]])].
    - auto.
    - rewrite amplify_get_job_world. simpl. repeat split; eauto.
    - unfold logger_info. rewrite amplify_get_job_world. simpl.
      repeat split; eauto. destruct (info_enabled v); eauto. }
  intros w'. destruct (Hframe w) as (Hj & Hd & Hc & Hl).
  do 4 (split; [done|]). intros Hcont Hreach. split.
  - rewrite <- Hcont.
    destruct (carried event "AppId") as [a|] eqn:Ha;
      [|unfold carried in Ha; unfold poll, getitem, bind, raise in Hcont;
        by rewrite Ha in Hcont].
    destruct (carried event "BranchName") as [b|] eqn:Hb;
      [|unfold carried in Ha, Hb; unfold poll, getitem, bind, ret, raise in Hcont;
        by rewrite Ha, Hb in Hcont].
    destruct (carried event "JobId") as [j|] eqn:Hjob;
      [|unfold carried in Ha, Hb, Hjob;
        unfold poll, getitem, bind, ret, raise in Hcont;
        by rewrite Ha, Hb, Hjob in Hcont].
    apply poll_outcome_determined; [unfold w'; by rewrite Hj|]. rewrite Hreach.
    rewrite (poll_unfold event a b j w Ha Hb Hjob) in Hcont.
    unfold amplify_get_job, call in Hcont.
    destruct (api_fault w (length (api_calls w))); [done | done].
  - destruct (Hframe w') as (Hj' & _). by rewrite Hj'.
Qed.

End Poller.

(* ===================================================================== *)
(** * The notification dispatcher *)
(* ===================================================================== *)

Section Dispatcher.
Import Py Stream NotificationProcessor Observe.

#[local] Arguments Py.slice_to : simpl never.

Lemma dispatcher_printed_nil (w : World) : dispatcher_printed [] w = w.
Proof. destruct w. unfold dispatcher_printed. simpl. by rewrite app_nil_r. Qed.

Lemma dispatcher_printed_app (l1 l2 : list string) (w : World) :
  dispatcher_printed l2 (dispatcher_printed l1 w) = dispatcher_printed (l1 ++ l2) w.
Proof. unfold dispatcher_printed. simpl. by rewrite app_assoc. Qed.

Lemma print_printed (line : string) (w : World) :
  print line w = (Ok tt, dispatcher_printed [line] w).
Proof. reflexivity. Qed.

Ltac one_line_at_most :=
  first [ exists []; split; [simpl; lia | by rewrite dispatcher_printed_nil]
        | eexists [_]; split; [simpl; lia | reflexivity] ].

(** The one operation that reaches SES, for contrast: every call of
    [send_email] adds a message to the outbox, accepted or not. *)
Lemma send_email_outbox (to_email subject body_html : string) (w : World) :
  outbox (snd (send_email to_email subject body_html w))
  = outbox w ++ [ {| Source := SES_FROM_EMAIL w; ToAddresses := [to_email];
                     Subject := subject; Html := body_html |} ].
Proof.
  unfold send_email, try_except, bind, ses_send_email.
  by destruct (ses_reply w _).
Qed.

(** Each branch reads fields of the image and prints at most one line. *)
Lemma process_comment_notification_world (img : Image) (w : World) :
  ∃ lines, length lines ≤ 1
           ∧ snd (process_comment_notification img w) = dispatcher_printed lines w.
Proof.
  unfold process_comment_notification, bind, getitem, ret, raise.
  repeat case_match; simplify_eq/=; one_line_at_most.
Qed.

Lemma process_reaction_notification_world (img : Image) (w : World) :
  ∃ lines, length lines ≤ 1
           ∧ snd (process_reaction_notification img w) = dispatcher_printed lines w.
Proof.
  unfold process_reaction_notification, bind, getitem, ret, raise.
  repeat case_match; simplify_eq/=; one_line_at_most.
Qed.

Lemma process_message_notification_world (img : Image) (w : World) :
  ∃ lines, length lines ≤ 1
           ∧ snd (process_message_notification img w) = dispatcher_printed lines w.
Proof.
  unfold process_message_notification, bind, getitem, ret, raise.
  repeat case_match; simplify_eq/=; one_line_at_most.
Qed.

Lemma dispatcher_process_insert_event_world (r : record) (w : World) :
  ∃ lines, length lines ≤ 1
           ∧ snd (process_insert_event r w) = dispatcher_printed lines w.
Proof.
  unfold process_insert_event.
  destruct (extracted_table_name r) as [t|] eqn:Ht.
  2:{ destruct (table_name_of_None (W:=World) r Ht) as [e He].
      rewrite (bind_raise _ _ _ _ _ (He w)). one_line_at_most. }
  rewrite (bind_ok _ _ _ _ _ (table_name_of_Some r t w Ht)).
  destruct (new_image r) as [img|] eqn:Hi.
  2:{ destruct (new_image_of_None (W:=World) r Hi) as [e He].
      rewrite (bind_raise _ _ _ _ _ (He w)). one_line_at_most. }
  rewrite (bind_ok _ _ _ _ _ (new_image_of_Some r img w Hi)).
  destruct (branch_of t).
  - apply process_comment_notification_world.
  - apply process_message_notification_world.
  - apply process_reaction_notification_world.
  - one_line_at_most.
Qed.

(** The [try] statement around a record never raises, and prints at most
    two lines. *)
Lemma dispatcher_try_record_world (r : record) (w : World) :
  ∃ lines, try_record r w = (Ok tt, dispatcher_printed lines w).
Proof.
  unfold try_record, try_except, bind, field, ret, raise.
  destruct (eventName r) as [name|]; [|by eexists [_]].
  destruct (String.eqb name "INSERT").
  - destruct (dispatcher_process_insert_event_world r w) as (lines & _ & H).
    destruct (process_insert_event r w) as [[[]|e] w1]; simpl in H; subst w1.
    + by exists lines.
    + exists (lines ++ ["Error processing record: " +:+ str e]).
      by rewrite print_printed, dispatcher_printed_app.
  - exists []. by rewrite dispatcher_printed_nil.
Qed.

Lemma dispatcher_for_each_world (batch : list record) (w : World) :
  ∃ lines, for_each batch try_record w = (Ok tt, dispatcher_printed lines w).
Proof.
  revert w. induction batch as [|r batch IH]; intros w; simpl.
  - exists []. by rewrite dispatcher_printed_nil.
  - destruct (dispatcher_try_record_world r w) as [l1 H1].
    rewrite (bind_ok _ _ _ _ _ H1).
    destruct (IH (dispatcher_printed l1 w)) as [l2 H2].
    exists (l1 ++ l2). by rewrite H2, dispatcher_printed_app.
Qed.

(** C7.  The notification dispatcher sends no email.  Whatever the batch
    and whatever SES would answer, the handler acknowledges and leaves a
    world that differs from the initial one in printed lines only: the
    outbox of [ses.send_email] calls is what it was.  The processing of
    one insert event prints at most one line and does nothing else. *)
Theorem dispatcher_sends_nothing (batch : list record) (w : World) :
  (∃ lines, lambda_handler {| Records := Some batch |} w
            = (Ok dispatcher_ack, dispatcher_printed lines w))
  ∧ outbox (snd (lambda_handler {| Records := Some batch |} w)) = outbox w
  ∧ (∀ (r : record) (v : World),
       ∃ lines, length lines ≤ 1
                ∧ snd (process_insert_event r v) = dispatcher_printed lines v
                ∧ outbox (snd (process_insert_event r v)) = outbox v).
Proof.
  assert (H : ∃ lines, lambda_handler {| Records := Some batch |} w
                       = (Ok dispatcher_ack, dispatcher_printed lines w)).
  { unfold lambda_handler. simpl. unfold bind at 1. simpl.
    unfold bind at 1. rewrite print_printed.
    destruct (dispatcher_for_each_world batch
                (dispatcher_printed
                   ["Processing " +:+ pretty (length batch) +:+ " records"] w))
      as [lines Hl].
    unfold bind. rewrite Hl. eexists. unfold ret.
    by rewrite dispatcher_printed_app. }
  split; [done|]. split.
  - destruct H as [lines ->]. done.
  - intros r v. destruct (dispatcher_process_insert_event_world r v) as (l & Hl & ->).
    exists l. done.
Qed.

(** The handler on the comment, reaction and message events of the tests:
    three lines beside the first, none of them about the reaction, and no
    mail. *)
Example dispatcher_run :
  let w' := snd (lambda_handler
                   {| Records := Some [Fixtures.comment_record;
                                       Fixtures.reaction_record;
                                       Fixtures.message_record] |}
                   Fixtures.notification_world) in
  outbox w' = []
  ∧ stdout w'
    = ["Processing 3 records";
       "New comment by Someone on a letter: Great letter!...";
       "Error processing record: 'itemId'";
       "New message from Someone: Hello!..."].
Proof. by vm_compute. Qed.

End Dispatcher.

(* ===================================================================== *)
(** * The activity updater *)
(* ===================================================================== *)

Section Updater.
Import Py Stream ActivityAggregator Observe.

(** ** Printing *)

Lemma activity_printed_nil (w : World) : activity_printed [] w = w.
Proof. destruct w. unfold activity_printed. simpl. by rewrite app_nil_r. Qed.

Lemma activity_printed_app (l1 l2 : list string) (w : World) :
  activity_printed l2 (activity_printed l1 w) = activity_printed (l1 ++ l2) w.
Proof. unfold activity_printed. simpl. by rewrite app_assoc. Qed.

Lemma activity_print_printed (line : string) (w : World) :
  print line w = (Ok tt, activity_printed [line] w).
Proof. reflexivity. Qed.

Lemma same_store_refl (w : World) : same_store w w.
Proof. by repeat split. Qed.

Lemma same_store_sym (w1 w2 : World) : same_store w1 w2 → same_store w2 w1.
Proof. intros (? & ? & ? & ? & ?). by repeat split. Qed.

Lemma same_store_trans (w1 w2 w3 : World) :
  same_store w1 w2 → same_store w2 w3 → same_store w1 w3.
Proof.
  intros (? & ? & ? & ? & ?) (? & ? & ? & ? & ?). repeat split; congruence.
Qed.

Lemma same_store_printed (lines : list string) (w : World) :
  same_store (activity_printed lines w) w.
Proof. by repeat split. Qed.

(** ** Computations that ignore standard output *)

Lemma ignores_ret {A} (a : A) : ignores_stdout (ret a).
Proof. by intros w1 w2 H. Qed.

Lemma ignores_raise {A} (e : exn) : ignores_stdout (@raise World A e).
Proof. by intros w1 w2 H. Qed.

Lemma ignores_bind {A B} (m : M World A) (k : A → M World B) :
  ignores_stdout m → (∀ a, ignores_stdout (k a)) → ignores_stdout (bind m k).
Proof.
  intros Hm Hk w1 w2 H. unfold bind. destruct (Hm w1 w2 H) as [Hr Hw].
  destruct (m w1) as [[a|e] v1], (m w2) as [[a'|e'] v2]; simpl in *;
    try discriminate Hr.
  - injection Hr as ->. by apply Hk.
  - injection Hr as ->. by split.
Qed.

Lemma ignores_try_except {A} (m : M World A) (h : exn → M World A) :
  ignores_stdout m → (∀ e, ignores_stdout (h e)) → ignores_stdout (try_except m h).
Proof.
  intros Hm Hh w1 w2 H. unfold try_except. destruct (Hm w1 w2 H) as [Hr Hw].
  destruct (m w1) as [[a|e] v1], (m w2) as [[a'|e'] v2]; simpl in *;
    try discriminate Hr.
  - by split.
  - injection Hr as ->. by apply Hh.
Qed.

Lemma ignores_print (line : string) : ignores_stdout (print line).
Proof. intros w1 w2 H. split; [done|]. exact H. Qed.

Lemma ignores_clock : ignores_stdout datetime_utcnow_isoformat.
Proof.
  intros w1 w2 (Ht & Hr & Hc & Hf & Hu). unfold datetime_utcnow_isoformat.
  simpl. rewrite Hc, Hu. by repeat split.
Qed.

Lemma ignores_update_item (req : UpdateItem) : ignores_stdout (update_item req).
Proof.
  intros w1 w2 (Ht & Hr & Hc & Hf & Hu). unfold update_item.
  rewrite Hr, Hf, Ht. destruct (store_fault w2 _); simpl; by repeat split.
Qed.

Lemma ignores_getitem {V} (d : gmap string V) (k : string) :
  ignores_stdout (getitem d k).
Proof. unfold getitem. destruct (d !! k); [apply ignores_ret | apply ignores_raise]. Qed.

Lemma ignores_field {V} (k : string) (o : option V) : ignores_stdout (field k o).
Proof. destruct o; [apply ignores_ret | apply ignores_raise]. Qed.

Lemma ignores_index {V} (l : list V) (i : nat) : ignores_stdout (index l i).
Proof. unfold index. destruct (l !! i); [apply ignores_ret | apply ignores_raise]. Qed.

Lemma ignores_for_each {A} (xs : list A) (body : A → M World unit) :
  (∀ x, ignores_stdout (body x)) → ignores_stdout (for_each xs body).
Proof.
  intros Hbody. induction xs as [|x xs IH]; simpl.
  - apply ignores_ret.
  - apply ignores_bind; [apply Hbody | intros _; apply IH].
Qed.

Create HintDb ignores discriminated.
Hint Resolve ignores_ret ignores_raise ignores_print ignores_clock
  ignores_update_item ignores_getitem ignores_field ignores_index : ignores.

Ltac ignores :=
  repeat first
    [ apply ignores_bind; [|intros ?]
    | apply ignores_try_except; [|intros ?]
    | solve [auto with ignores] ].

Lemma ignores_increment_comment_count (u : string) :
  ignores_stdout (increment_comment_count u).
Proof. unfold increment_comment_count. ignores. Qed.

Lemma ignores_update_last_active (u : string) :
  ignores_stdout (update_last_active u).
Proof. unfold update_last_active. ignores. Qed.

Hint Resolve ignores_increment_comment_count ignores_update_last_active : ignores.

Lemma ignores_process_insert_event (r : record) :
  ignores_stdout (process_insert_event r).
Proof.
  unfold process_insert_event, table_name_of, new_image_of.
  ignores. destruct (branch_of _); ignores.
  destruct (get _ "senderId" ∅ !! "S") as [s|]; [|ignores].
  destruct (String.eqb s ""); ignores.
Qed.

Lemma ignores_try_record (r : record) : ignores_stdout (try_record r).
Proof.
  unfold try_record. ignores.
  destruct (String.eqb _ "INSERT"); [apply ignores_process_insert_event | ignores].
Qed.

(** ** The store *)

Lemma update_item_requests (req : UpdateItem) (w : World) :
  requests (snd (update_item req w)) = requests w ++ [req].
Proof. unfold update_item. by destruct (store_fault w _). Qed.

Lemma update_item_table (req : UpdateItem) (w : World) :
  table (snd (update_item req w)) = served w (length (requests w)) req (table w).
Proof. unfold update_item, served. by destruct (store_fault w _). Qed.

Lemma update_item_rest (req : UpdateItem) (w : World) :
  store_fault (snd (update_item req w)) = store_fault w
  ∧ utcnow_isoformat (snd (update_item req w)) = utcnow_isoformat w
  ∧ clock_reads (snd (update_item req w)) = clock_reads w
  ∧ stdout (snd (update_item req w)) = stdout w.
Proof. unfold update_item. by destruct (store_fault w _). Qed.

Lemma apply_update_other (req : UpdateItem) (t : gmap string Profile) (v : string) :
  v ≠ Key_userId req → apply_update req t !! v = t !! v.
Proof. intros H. unfold apply_update. by rewrite lookup_insert_ne. Qed.

Lemma served_other (w : World) (i : nat) (req : UpdateItem)
    (t : gmap string Profile) (v : string) :
  v ≠ Key_userId req → served w i req t !! v = t !! v.
Proof.
  intros H. unfold served. destruct (store_fault w i); [done|].
  by apply apply_update_other.
Qed.

Lemma counter_add (t : gmap string Profile) (u : string) :
  counter (apply_update (add_request u) t) u = Some (default 0 (counter t u) + 1)%Z.
Proof.
  unfold counter, apply_update, add_request. simpl. rewrite lookup_insert_eq. simpl.
  by destruct (t !! u) as [[[c|] l]|].
Qed.

Lemma last_active_add (t : gmap string Profile) (u v : string) :
  last_active (apply_update (add_request u) t) v = last_active t v.
Proof.
  unfold last_active, apply_update, add_request. simpl.
  destruct (decide (u = v)) as [->|Hne].
  - rewrite lookup_insert_eq. simpl. by destruct (t !! v).
  - by rewrite lookup_insert_ne.
Qed.

Lemma counter_set (t : gmap string Profile) (u now v : string) :
  counter (apply_update (set_request u now) t) v = counter t v.
Proof.
  unfold counter, apply_update, set_request. simpl.
  destruct (decide (u = v)) as [->|Hne].
  - rewrite lookup_insert_eq. simpl. by destruct (t !! v).
  - by rewrite lookup_insert_ne.
Qed.

Lemma last_active_set (t : gmap string Profile) (u now : string) :
  last_active (apply_update (set_request u now) t) u = Some now.
Proof.
  unfold last_active, apply_update, set_request. simpl.
  by rewrite lookup_insert_eq.
Qed.

(** ** The two helpers *)

(** Each helper issues its one request, prints one line and returns,
    whatever the store answers. *)
Lemma increment_comment_count_spec (u : string) (w : World) :
  ∃ line, increment_comment_count u w
          = (Ok tt, activity_printed [line] (snd (update_item (add_request u) w))).
Proof.
  unfold increment_comment_count, try_except, bind, update_item, add_request.
  destruct (store_fault w _); by eexists.
Qed.

Lemma update_last_active_spec (u : string) (w : World) :
  ∃ line, update_last_active u w
          = (Ok tt,
             activity_printed [line]
               (snd (update_item (set_request u (next_timestamp w))
                       (snd (datetime_utcnow_isoformat w))))).
Proof.
  unfold update_last_active, try_except, bind, update_item, set_request,
    next_timestamp, datetime_utcnow_isoformat.
  simpl. destruct (store_fault w _); by eexists.
Qed.

(** What a call of [update_last_active] leaves. *)
Lemma update_last_active_effect (u : string) (w : World) :
  ∃ w', update_last_active u w = (Ok tt, w')
        ∧ requests w' = requests w ++ [set_request u (next_timestamp w)]
        ∧ table w' = served w (length (requests w))
                       (set_request u (next_timestamp w)) (table w)
        ∧ clock_reads w' = S (clock_reads w)
        ∧ store_fault w' = store_fault w
        ∧ utcnow_isoformat w' = utcnow_isoformat w.
Proof.
  destruct (update_last_active_spec u w) as [line ->]. eexists. split; [done|].
  cbn [activity_printed requests table clock_reads store_fault utcnow_isoformat].
  rewrite update_item_requests, update_item_table.
  destruct (update_item_rest (set_request u (next_timestamp w))
              (snd (datetime_utcnow_isoformat w))) as (-> & -> & -> & _).
  done.
Qed.

Lemma increment_comment_count_effect (u : string) (w : World) :
  ∃ w', increment_comment_count u w = (Ok tt, w')
        ∧ requests w' = requests w ++ [add_request u]
        ∧ table w' = served w (length (requests w)) (add_request u) (table w)
        ∧ clock_reads w' = clock_reads w
        ∧ store_fault w' = store_fault w
        ∧ utcnow_isoformat w' = utcnow_isoformat w.
Proof.
  destruct (increment_comment_count_spec u w) as [line ->]. eexists. split; [done|].
  cbn [activity_printed requests table clock_reads store_fault utcnow_isoformat].
  rewrite update_item_requests, update_item_table.
  destruct (update_item_rest (add_request u) w) as (-> & -> & -> & _).
  done.
Qed.

(** ** The branches of [process_insert_event] *)

Lemma acting_user_Some (r : record) (u : string) :
  acting_user r = Some u →
  ∃ img a, new_image r = Some img ∧ img !! "userId" = Some a ∧ a !! "S" = Some u.
Proof.
  unfold acting_user. destruct (new_image r) as [img|] eqn:Hi; simpl; [|done].
  destruct (img !! "userId") as [a|] eqn:Ha; simpl; [|done].
  intros H. by exists img, a.
Qed.

Lemma served_next (w w1 : World) (req : UpdateItem) (x : UpdateItem)
    (t : gmap string Profile) :
  store_fault w1 = store_fault w →
  requests w1 = requests w ++ [x] →
  served w1 (length (requests w1)) req t = served w (S (length (requests w))) req t.
Proof.
  intros Hf Hr. unfold served. rewrite Hf, Hr, length_app. simpl.
  by rewrite Nat.add_1_r.
Qed.

Lemma next_timestamp_eq (w w1 : World) :
  clock_reads w1 = clock_reads w → utcnow_isoformat w1 = utcnow_isoformat w →
  next_timestamp w1 = next_timestamp w.
Proof. unfold next_timestamp. by intros -> ->. Qed.

(** The comment branch: two requests, in this order, and no exception. *)
Lemma comment_branch_effect (r : record) (t u : string) (w : World) :
  extracted_table_name r = Some t → branch_of t = Comment →
  acting_user r = Some u →
  ∃ w', process_insert_event r w = (Ok tt, w')
        ∧ requests w'
          = requests w ++ [add_request u; set_request u (next_timestamp w)]
        ∧ table w'
          = served w (S (length (requests w))) (set_request u (next_timestamp w))
              (served w (length (requests w)) (add_request u) (table w)).
Proof.
  intros Ht Hb Hu. destruct (acting_user_Some r u Hu) as (img & a & Hi & Ha & Hs).
  unfold process_insert_event.
  rewrite (bind_ok _ _ _ _ _ (table_name_of_Some r t w Ht)).
  rewrite (bind_ok _ _ _ _ _ (new_image_of_Some r img w Hi)), Hb.
  rewrite (bind_ok _ _ _ _ _ (getitem_Some img "userId" a w Ha)).
  rewrite (bind_ok _ _ _ _ _ (getitem_Some a "S" u w Hs)).
  destruct (increment_comment_count_effect u w) as (w1 & H1 & Hr1 & Ht1 & Hc1 & Hf1 & Hn1).
  rewrite (bind_ok _ _ _ _ _ H1).
  destruct (update_last_active_effect u w1) as (w2 & H2 & Hr2 & Ht2 & _).
  exists w2. split; [done|].
  rewrite Hr2, Ht2, (next_timestamp_eq w w1 Hc1 Hn1), (served_next w w1 _ _ _ Hf1 Hr1).
  rewrite Hr1, Ht1, <- app_assoc. done.
Qed.

(** The reaction branch: one request. *)
Lemma reaction_branch_effect (r : record) (t u : string) (w : World) :
  extracted_table_name r = Some t → branch_of t = Reaction →
  acting_user r = Some u →
  ∃ w', process_insert_event r w = (Ok tt, w')
        ∧ requests w' = requests w ++ [set_request u (next_timestamp w)]
        ∧ table w' = served w (length (requests w))
                       (set_request u (next_timestamp w)) (table w).
Proof.
  intros Ht Hb Hu. destruct (acting_user_Some r u Hu) as (img & a & Hi & Ha & Hs).
  unfold process_insert_event.
  rewrite (bind_ok _ _ _ _ _ (table_name_of_Some r t w Ht)).
  rewrite (bind_ok _ _ _ _ _ (new_image_of_Some r img w Hi)), Hb.
  rewrite (bind_ok _ _ _ _ _ (getitem_Some img "userId" a w Ha)).
  rewrite (bind_ok _ _ _ _ _ (getitem_Some a "S" u w Hs)).
  destruct (update_last_active_effect u w) as (w2 & H2 & Hr2 & Ht2 & _).
  by exists w2.
Qed.

(** The message branch: one request when the sender is a non-empty
    string, nothing otherwise. *)
Lemma message_branch_effect (r : record) (t : string) (w : World) :
  extracted_table_name r = Some t → branch_of t = Message →
  is_Some (new_image r) →
  match sender r with
  | Some s =>
      if String.eqb s "" then process_insert_event r w = (Ok tt, w)
      else ∃ w', process_insert_event r w = (Ok tt, w')
                 ∧ requests w' = requests w ++ [set_request s (next_timestamp w)]
                 ∧ table w' = served w (length (requests w))
                                (set_request s (next_timestamp w)) (table w)
  | None => process_insert_event r w = (Ok tt, w)
  end.
Proof.
  intros Ht Hb [img Hi]. unfold sender, process_insert_event.
  rewrite (bind_ok _ _ _ _ _ (table_name_of_Some r t w Ht)).
  rewrite (bind_ok _ _ _ _ _ (new_image_of_Some r img w Hi)), Hb, Hi. simpl.
  destruct (get img "senderId" ∅ !! "S") as [s|]; [|done].
  destruct (String.eqb s ""); [done|].
  destruct (update_last_active_effect s w) as (w2 & H2 & Hr2 & Ht2 & _).
  by exists w2.
Qed.

(** A table name no condition matches: nothing happens. *)
Lemma ignored_branch_effect (r : record) (t : string) (w : World) :
  extracted_table_name r = Some t → branch_of t = Ignored →
  is_Some (new_image r) →
  process_insert_event r w = (Ok tt, w).
Proof.
  intros Ht Hb [img Hi]. unfold process_insert_event.
  rewrite (bind_ok _ _ _ _ _ (table_name_of_Some r t w Ht)).
  by rewrite (bind_ok _ _ _ _ _ (new_image_of_Some r img w Hi)), Hb.
Qed.

(** Whether [process_insert_event] raises is decided by the record: it
    raises the same exception in every world and leaves the world as it
    was, or it returns in every world. *)
Lemma process_insert_event_cases (r : record) :
  (∃ e, ∀ w, process_insert_event r w = (Raise e, w))
  ∨ (∀ w, ∃ w', process_insert_event r w = (Ok tt, w')).
Proof.
  destruct (extracted_table_name r) as [t|] eqn:Ht.
  2:{ left. destruct (table_name_of_None (W:=World) r Ht) as [e He].
      exists e. intros w. unfold process_insert_event.
      by rewrite (bind_raise _ _ _ _ _ (He w)). }
  destruct (new_image r) as [img|] eqn:Hi.
  2:{ left. destruct (new_image_of_None (W:=World) r Hi) as [e He].
      exists e. intros w. unfold process_insert_event.
      rewrite (bind_ok _ _ _ _ _ (table_name_of_Some r t w Ht)).
      by rewrite (bind_raise _ _ _ _ _ (He w)). }
  destruct (branch_of t) eqn:Hb.
  - destruct (acting_user r) as [u|] eqn:Hu.
    + right. intros w.
      destruct (comment_branch_effect r t u w Ht Hb Hu) as (w' & H & _). by exists w'.
    + left. unfold acting_user in Hu. rewrite Hi in Hu. simpl in Hu.
      destruct (img !! "userId") as [a|] eqn:Ha; simpl in Hu.
      * exists (KeyError "S"). intros w. unfold process_insert_event.
        rewrite (bind_ok _ _ _ _ _ (table_name_of_Some r t w Ht)).
        rewrite (bind_ok _ _ _ _ _ (new_image_of_Some r img w Hi)), Hb.
        rewrite (bind_ok _ _ _ _ _ (getitem_Some img "userId" a w Ha)).
        by rewrite (bind_raise _ _ _ _ _ (getitem_None a "S" w Hu)).
      * exists (KeyError "userId"). intros w. unfold process_insert_event.
        rewrite (bind_ok _ _ _ _ _ (table_name_of_Some r t w Ht)).
        rewrite (bind_ok _ _ _ _ _ (new_image_of_Some r img w Hi)), Hb.
        by rewrite (bind_raise _ _ _ _ _ (getitem_None img "userId" w Ha)).
  - right. intros w.
    pose proof (message_branch_effect r t w Ht Hb (ex_intro _ img Hi)) as H.
    destruct (sender r) as [s|]; [|by exists w].
    destruct (String.eqb s ""); [by exists w|].
    destruct H as (w' & H & _). by exists w'.
  - destruct (acting_user r) as [u|] eqn:Hu.
    + right. intros w.
      destruct (reaction_branch_effect r t u w Ht Hb Hu) as (w' & H & _). by exists w'.
    + left. unfold acting_user in Hu. rewrite Hi in Hu. simpl in Hu.
      destruct (img !! "userId") as [a|] eqn:Ha; simpl in Hu.
      * exists (KeyError "S"). intros w. unfold process_insert_event.
        rewrite (bind_ok _ _ _ _ _ (table_name_of_Some r t w Ht)).
        rewrite (bind_ok _ _ _ _ _ (new_image_of_Some r img w Hi)), Hb.
        rewrite (bind_ok _ _ _ _ _ (getitem_Some img "userId" a w Ha)).
        by rewrite (bind_raise _ _ _ _ _ (getitem_None a "S" w Hu)).
      * exists (KeyError "userId"). intros w. unfold process_insert_event.
        rewrite (bind_ok _ _ _ _ _ (table_name_of_Some r t w Ht)).
        rewrite (bind_ok _ _ _ _ _ (new_image_of_Some r img w Hi)), Hb.
        by rewrite (bind_raise _ _ _ _ _ (getitem_None img "userId" w Ha)).
  - right. intros w. exists w.
    by apply (ignored_branch_effect r t w Ht Hb (ex_intro _ img Hi)).
Qed.

Lemma process_insert_event_raise (r : record) (e : exn) (w w' : World) :
  process_insert_event r w = (Raise e, w') →
  w' = w ∧ ∀ v, process_insert_event r v = (Raise e, v).
Proof.
  intros H. destruct (process_insert_event_cases r) as [[e0 He]|Hok].
  - rewrite He in H. injection H as -> ->. done.
  - destruct (Hok w) as [w1 H1]. rewrite H1 in H. discriminate H.
Qed.

(** ** The loop body *)

Lemma try_record_insert (r : record) (w : World) :
  eventName r = Some "INSERT" →
  try_record r w
  = match process_insert_event r w with
    | (Ok a, w') => (Ok a, w')
    | (Raise e, w') => (Ok tt, activity_printed ["Error processing record: " +:+ str e] w')
    end.
Proof.
  intros H. unfold try_record, try_except, bind, field. rewrite H. simpl.
  by destruct (process_insert_event r w) as [[[]|e] w'].
Qed.

Lemma try_record_other (r : record) (w : World) :
  eventName r ≠ Some "INSERT" →
  ∃ lines, try_record r w = (Ok tt, activity_printed lines w).
Proof.
  intros H. unfold try_record, try_except, bind, field.
  destruct (eventName r) as [name|]; simpl; [|by eexists [_]].
  destruct (String.eqb_spec name "INSERT") as [->|_]; [done|].
  exists []. by rewrite activity_printed_nil.
Qed.

(** The [try] statement never lets an exception through. *)
Lemma try_record_returns (r : record) (w : World) : fst (try_record r w) = Ok tt.
Proof.
  destruct (decide (eventName r = Some "INSERT")) as [H|H].
  - rewrite (try_record_insert r w H).
    by destruct (process_insert_event r w) as [[[]|e] w'].
  - by destruct (try_record_other r w H) as [lines ->].
Qed.

Lemma for_each_try_record_returns (batch : list record) (w : World) :
  fst (for_each batch try_record w) = Ok tt.
Proof.
  revert w. induction batch as [|r batch IH]; intros w; simpl; [done|].
  unfold bind. pose proof (try_record_returns r w) as H.
  destruct (try_record r w) as [[[]|e] w1]; simpl in H; [apply IH | discriminate].
Qed.

(** The handler on a batch: one line, the loop, the acknowledgement. *)
Lemma lambda_handler_unfold (batch : list record) (w : World) :
  lambda_handler {| Records := Some batch |} w
  = (Ok activity_ack,
     snd (for_each batch try_record
            (activity_printed
               ["Processing " +:+ pretty (length batch) +:+ " records"] w))).
Proof.
  unfold lambda_handler, bind at 1. simpl. unfold bind at 1.
  rewrite activity_print_printed. unfold bind.
  pose proof (for_each_try_record_returns batch
                (activity_printed
                   ["Processing " +:+ pretty (length batch) +:+ " records"] w)) as H.
  destruct (for_each batch try_record _) as [[[]|e] w1]; simpl in H; [done | discriminate].
Qed.

(** ** What the requests of a comment do to the table *)

Lemma comment_table_facts (w : World) (i : nat) (u now : string)
    (t0 : gmap string Profile) :
  let t' := served w (S i) (set_request u now) (served w i (add_request u) t0) in
  (store_fault w i = None →
   counter t' u = Some (default 0 (counter t0 u) + 1)%Z)
  ∧ (is_Some (store_fault w i) → counter t' u = counter t0 u)
  ∧ (store_fault w (S i) = None → last_active t' u = Some now)
  ∧ (∀ v, v ≠ u → t' !! v = t0 !! v).
Proof.
  intros t'. subst t'. repeat split.
  - intros Hi. unfold served. rewrite Hi.
    destruct (store_fault w (S i)); [|rewrite counter_set]; apply counter_add.
  - intros [msg Hi]. unfold served. rewrite Hi.
    destruct (store_fault w (S i)); [done | apply counter_set].
  - intros Hs. unfold served at 1. rewrite Hs. apply last_active_set.
  - intros v Hv. by rewrite !served_other.
Qed.

Lemma set_table_facts (w : World) (i : nat) (u now : string)
    (t0 : gmap string Profile) :
  let t' := served w i (set_request u now) t0 in
  (∀ v, counter t' v = counter t0 v)
  ∧ (store_fault w i = None → last_active t' u = Some now)
  ∧ (∀ v, v ≠ u → t' !! v = t0 !! v).
Proof.
  intros t'. subst t'. repeat split.
  - intros v. unfold served. destruct (store_fault w i); [done | apply counter_set].
  - intros Hs. unfold served. rewrite Hs. apply last_active_set.
  - intros v Hv. by rewrite served_other.
Qed.

(** A comment record through the loop body. *)
Lemma comment_record_effect (r : record) (t u : string) (w : World) :
  eventName r = Some "INSERT" →
  extracted_table_name r = Some t → branch_of t = Comment →
  acting_user r = Some u →
  ∃ w', try_record r w = (Ok tt, w')
        ∧ process_insert_event r w = (Ok tt, w')
        ∧ requests w'
          = requests w ++ [add_request u; set_request u (next_timestamp w)]
        ∧ table w'
          = served w (S (length (requests w))) (set_request u (next_timestamp w))
              (served w (length (requests w)) (add_request u) (table w)).
Proof.
  intros He Ht Hb Hu.
  destruct (comment_branch_effect r t u w Ht Hb Hu) as (w' & H & Hr & Htab).
  exists w'. by rewrite (try_record_insert r w He), H.
Qed.

(** A record whose table name no condition matches, through the loop
    body: no exception leaves it, and only printing can happen. *)
Lemma ignored_record_effect (r : record) (t : string) (w : World) :
  eventName r = Some "INSERT" →
  extracted_table_name r = Some t → branch_of t = Ignored →
  ∃ lines, try_record r w = (Ok tt, activity_printed lines w)
           ∧ (is_Some (new_image r) → lines = []).
Proof.
  intros He Ht Hb. rewrite (try_record_insert r w He).
  destruct (new_image r) as [img|] eqn:Hi.
  - rewrite (ignored_branch_effect r t w Ht Hb (ex_intro _ img Hi)).
    exists []. by rewrite activity_printed_nil.
  - destruct (new_image_of_None (W:=World) r Hi) as [e Hraise].
    unfold process_insert_event.
    rewrite (bind_ok _ _ _ _ _ (table_name_of_Some r t w Ht)).
    rewrite (bind_raise _ _ _ _ _ (Hraise w)).
    eexists. split; [done|]. by intros [? [=]].
Qed.

(** The loop on a batch without inserts only prints. *)
Lemma for_each_no_insert (batch : list record) (w : World) :
  Forall (λ r, eventName r ≠ Some "INSERT") batch →
  ∃ lines, for_each batch try_record w = (Ok tt, activity_printed lines w).
Proof.
  intros H. revert w. induction H as [|r batch Hr _ IH]; intros w; simpl.
  - exists []. by rewrite activity_printed_nil.
  - destruct (try_record_other r w Hr) as [l1 H1].
    rewrite (bind_ok _ _ _ _ _ H1).
    destruct (IH (activity_printed l1 w)) as [l2 H2].
    exists (l1 ++ l2). by rewrite H2, activity_printed_app.
Qed.

(** The store after the handler has run is the store after its loop. *)
Lemma lambda_handler_same_store (batch : list record) (w : World) :
  same_store (snd (lambda_handler {| Records := Some batch |} w))
             (snd (for_each batch try_record w)).
Proof.
  rewrite lambda_handler_unfold. cbn [snd].
  apply ignores_for_each; [apply ignores_try_record | apply same_store_printed].
Qed.

(** ** The claims on the activity updater *)

(** C4.  An insert event that the activity updater classifies as a
    comment, written by user [u]: the handler issues, in this order, the
    request adding 1 to the comment counter of [u] and the request setting
    the last-active timestamp of [u] to the clock reading followed by "Z",
    and raises nothing.  Where the store carries out the first, the
    counter of [u] is its old value (0 when there was none) plus 1; where
    it carries out the second, the timestamp of [u] is that string, which
    ends in "Z".  No other user's row changes. *)
Theorem comment_event_effect (r : record) (t u : string) (w : World) :
  eventName r = Some "INSERT" →
  extracted_table_name r = Some t → branch_of t = Comment →
  acting_user r = Some u →
  let i := length (requests w) in
  let now := next_timestamp w in
  ∃ w', process_insert_event r w = (Ok tt, w')
        ∧ try_record r w = (Ok tt, w')
        ∧ requests w' = requests w ++ [add_request u; set_request u now]
        ∧ endswith "Z" now = true
        ∧ (store_fault w i = None →
           counter (table w') u = Some (default 0 (counter (table w) u) + 1)%Z)
        ∧ (store_fault w (S i) = None → last_active (table w') u = Some now)
        ∧ (∀ v, v ≠ u → table w' !! v = table w !! v).
Proof.
  intros He Ht Hb Hu i now.
  destruct (comment_record_effect r t u w He Ht Hb Hu) as (w' & H & Hp & Hr & Htab).
  destruct (comment_table_facts w i u now (table w)) as (Hc & _ & Hl & Ho).
  exists w'. rewrite Htab. repeat split; try done. apply endswith_app.
Qed.

Lemma comment_event_effect_witness :
  ∃ w', try_record Fixtures.comment_record Fixtures.activity_world = (Ok tt, w')
        ∧ counter (table w') "user-123" = Some 6%Z
        ∧ last_active (table w') "user-123" = Some "2025-01-15T10:00:00.000000Z".
Proof.
  destruct (comment_event_effect Fixtures.comment_record
              "hold-that-thought-comments" "user-123" Fixtures.activity_world
              eq_refl eq_refl eq_refl eq_refl)
    as (w' & _ & H & _ & _ & Hc & Hl & _).
  exists w'. split; [exact H|]. split.
  - rewrite (Hc eq_refl). reflexivity.
  - exact (Hl eq_refl).
Defined.

(** C5.  An insert event that the activity updater classifies as a
    message never touches a comment counter and never raises.  With a
    sender identifier (a non-empty string under ['senderId']['S']) the one
    request issued sets the sender's last-active timestamp, and no other
    row changes; without one (the field is missing, or holds the empty
    string) the world is left exactly as it was. *)
Theorem message_event_effect (r : record) (t : string) (w : World) :
  eventName r = Some "INSERT" →
  extracted_table_name r = Some t → branch_of t = Message →
  is_Some (new_image r) →
  let i := length (requests w) in
  let now := next_timestamp w in
  ∃ w', try_record r w = (Ok tt, w')
        ∧ (∀ v, counter (table w') v = counter (table w) v)
        ∧ match sender r with
          | None => w' = w
          | Some s =>
              (∀ v, v ≠ s → table w' !! v = table w !! v)
              ∧ if String.eqb s "" then w' = w
                else requests w' = requests w ++ [set_request s now]
                     ∧ endswith "Z" now = true
                     ∧ (store_fault w i = None →
                        last_active (table w') s = Some now)
          end.
Proof.
  intros He Ht Hb Hi i now. rewrite (try_record_insert r w He).
  pose proof (message_branch_effect r t w Ht Hb Hi) as H.
  destruct (sender r) as [s|]; [|rewrite H; by exists w].
  destruct (String.eqb s ""); [rewrite H; by exists w|].
  destruct H as (w' & -> & Hr & Htab). exists w'.
  destruct (set_table_facts w i s now (table w)) as (Hc & Hl & Ho).
  rewrite Htab. repeat split; try done. apply endswith_app.
Qed.

Lemma message_event_effect_witness :
  (∃ w', try_record Fixtures.message_record Fixtures.activity_world = (Ok tt, w')
         ∧ counter (table w') "user-123" = Some 5%Z
         ∧ last_active (table w') "user-456" = Some "2025-01-15T10:00:00.000000Z")
  ∧ try_record Fixtures.anonymous_message_record Fixtures.activity_world
    = (Ok tt, Fixtures.activity_world).
Proof.
  split.
  - destruct (message_event_effect Fixtures.message_record
                "hold-that-thought-messages" Fixtures.activity_world
                eq_refl eq_refl eq_refl (ex_intro _ _ eq_refl))
      as (w' & H & Hc & _ & _ & _ & Hl).
    exists w'. split; [exact H|]. split.
    + rewrite Hc. reflexivity.
    + exact (Hl eq_refl).
  - destruct (message_event_effect Fixtures.anonymous_message_record
                "hold-that-thought-messages" Fixtures.activity_world
                eq_refl eq_refl eq_refl (ex_intro _ _ eq_refl))
      as (w' & H & _ & Hw).
    rewrite H. f_equal. exact Hw.
Defined.

(** C6.  On a batch in which no event is an "INSERT" the activity updater
    acknowledges, and the world it leaves differs from the initial one in
    printed lines only: no request was issued, the table is untouched. *)
Theorem non_insert_batch_no_mutation (batch : list record) (w : World) :
  Forall (λ r, eventName r ≠ Some "INSERT") batch →
  ∃ w' lines,
    lambda_handler {| Records := Some batch |} w = (Ok activity_ack, w')
    ∧ w' = activity_printed lines w
    ∧ table w' = table w
    ∧ requests w' = requests w.
Proof.
  intros H. rewrite lambda_handler_unfold.
  destruct (for_each_no_insert batch
              (activity_printed
                 ["Processing " +:+ pretty (length batch) +:+ " records"] w) H)
    as [lines Hl].
  rewrite Hl. cbn [snd]. rewrite activity_printed_app.
  eexists _, _. by repeat split.
Qed.

Lemma non_insert_batch_no_mutation_witness :
  ∃ w', lambda_handler
          {| Records := Some [Fixtures.modify_record; Fixtures.remove_record] |}
          Fixtures.activity_world
        = (Ok activity_ack, w')
        ∧ table w' = table Fixtures.activity_world
        ∧ requests w' = [].
Proof.
  destruct (non_insert_batch_no_mutation
              [Fixtures.modify_record; Fixtures.remove_record]
              Fixtures.activity_world)
    as (w' & lines & H & _ & Ht & Hr).
  - repeat constructor; discriminate.
  - exists w'. split; [exact H|]. split; [exact Ht | exact Hr].
Defined.

(** C9.  An insert event whose table name contains none of "comment",
    "message", "reaction" is ignored by the activity updater: no branch is
    taken; the loop body returns without an exception and can only have
    printed; when the event carries its new image, [process_insert_event]
    itself returns without an exception and the world is exactly what it
    was.  A batch with the event in it leaves the store as the batch
    without it does, and is acknowledged alike. *)
Theorem unknown_table_ignored (r : record) (t : string) :
  eventName r = Some "INSERT" →
  extracted_table_name r = Some t →
  contains "comment" (lower t) = false →
  contains "message" (lower t) = false →
  contains "reaction" (lower t) = false →
  branch_of t = Ignored
  ∧ (∀ w, ∃ lines, try_record r w = (Ok tt, activity_printed lines w))
  ∧ (∀ w, is_Some (new_image r) →
          process_insert_event r w = (Ok tt, w) ∧ try_record r w = (Ok tt, w))
  ∧ (∀ pre post w,
       let with_r := lambda_handler {| Records := Some (pre ++ r :: post) |} w in
       let without_r := lambda_handler {| Records := Some (pre ++ post) |} w in
       fst with_r = Ok activity_ack
       ∧ fst without_r = Ok activity_ack
       ∧ same_store (snd with_r) (snd without_r)).
Proof.
  intros He Ht Hc Hm Hr.
  assert (Hb : branch_of t = Ignored).
  { unfold branch_of. cbv zeta. by rewrite Hc, Hm, Hr. }
  split; [done|]. split; [|split].
  - intros w. destruct (ignored_record_effect r t w He Ht Hb) as (lines & H & _).
    by exists lines.
  - intros w Hi. rewrite (try_record_insert r w He).
    by rewrite (ignored_branch_effect r t w Ht Hb Hi).
  - intros pre post w with_r without_r. subst with_r without_r.
    rewrite !lambda_handler_unfold. cbn [fst snd]. do 2 (split; [done|]).
    rewrite !(for_each_app _ _ _ _ try_record_returns).
    match goal with
    | |- same_store (snd (for_each _ _ (snd (for_each pre _ ?a))))
                    (snd (for_each _ _ (snd (for_each pre _ ?b)))) =>
        assert (Hpre : same_store (snd (for_each pre try_record a))
                                  (snd (for_each pre try_record b)))
    end.
    { apply ignores_for_each; [apply ignores_try_record|].
      eapply same_store_trans; [apply same_store_printed|].
      apply same_store_sym, same_store_printed. }
    cbn [for_each].
    match goal with
    | |- same_store (snd (bind (try_record r) _ ?v)) _ =>
        destruct (ignored_record_effect r t v He Ht Hb) as (lines & Hrec & _);
        rewrite (bind_ok _ _ _ _ _ Hrec)
    end.
    apply ignores_for_each; [apply ignores_try_record|].
    eapply same_store_trans; [apply same_store_printed | exact Hpre].
Qed.

Lemma unknown_table_ignored_witness :
  try_record Fixtures.foreign_record Fixtures.activity_world
  = (Ok tt, Fixtures.activity_world)
  ∧ table (snd (lambda_handler
                  {| Records := Some [Fixtures.foreign_record; Fixtures.comment_record] |}
                  Fixtures.activity_world))
    = table (snd (lambda_handler
                    {| Records := Some [Fixtures.comment_record] |}
                    Fixtures.activity_world)).
Proof.
  destruct (unknown_table_ignored Fixtures.foreign_record "hold-that-thought-letters"
              eq_refl eq_refl eq_refl eq_refl eq_refl)
    as (_ & _ & Hsilent & Hbatch).
  split.
  - exact (proj2 (Hsilent Fixtures.activity_world (ex_intro _ _ eq_refl))).
  - exact (proj1 (proj2 (proj2 (Hbatch [] [Fixtures.comment_record]
                                   Fixtures.activity_world)))).
Defined.

(** C3.  Whatever the batch and whatever the store answers, the activity
    updater returns its acknowledgement.  No record lets an exception out
    of the loop body, so the loop goes through every record: the records
    after any prefix are processed from the world the prefix left.  In a
    batch of two made of a record on which [process_insert_event] raises
    and another record, in either order, the store ends as if the other
    record had been processed alone; if that one is a comment by [u] and
    the store carries out its first request, the counter of [u] has grown
    by 1. *)
Theorem handler_survives_failures (batch : list record) (w : World) :
  fst (lambda_handler {| Records := Some batch |} w) = Ok activity_ack
  ∧ (∀ r v, fst (try_record r v) = Ok tt)
  ∧ (∀ pre post v,
       for_each (pre ++ post) try_record v
       = for_each post try_record (snd (for_each pre try_record v)))
  ∧ (∀ bad good e,
       eventName bad = Some "INSERT" →
       fst (process_insert_event bad w) = Raise e →
       batch = [bad; good] ∨ batch = [good; bad] →
       same_store (snd (lambda_handler {| Records := Some batch |} w))
                  (snd (try_record good w))
       ∧ ∀ t u,
           eventName good = Some "INSERT" →
           extracted_table_name good = Some t → branch_of t = Comment →
           acting_user good = Some u →
           store_fault w (length (requests w)) = None →
           counter (table (snd (lambda_handler {| Records := Some batch |} w))) u
           = Some (default 0 (counter (table w) u) + 1)%Z).
Proof.
  split; [by rewrite lambda_handler_unfold|].
  split; [apply try_record_returns|].
  split; [intros pre post v; apply for_each_app, try_record_returns|].
  intros bad good e Hins Hraise Hbatch.
  assert (Hbad : ∀ v, try_record bad v
                      = (Ok tt, activity_printed
                                  ["Error processing record: " +:+ str e] v)).
  { intros v. rewrite (try_record_insert bad v Hins).
    destruct (process_insert_event bad w) as [x w1] eqn:Hp. simpl in Hraise. subst x.
    destruct (process_insert_event_raise bad e w w1 Hp) as [_ Hall].
    by rewrite Hall. }
  assert (Hstore : same_store (snd (lambda_handler {| Records := Some batch |} w))
                              (snd (try_record good w))).
  { eapply same_store_trans; [apply lambda_handler_same_store|].
    destruct Hbatch as [-> | ->]; cbn [for_each].
    - rewrite (bind_ok _ _ _ _ _ (Hbad w)).
      pose proof (try_record_returns good
                    (activity_printed ["Error processing record: " +:+ str e] w)) as Hg.
      unfold bind.
      destruct (ignores_try_record good
                  (activity_printed ["Error processing record: " +:+ str e] w) w
                  (same_store_printed _ w)) as [_ Hs].
      destruct (try_record good (activity_printed _ w)) as [[[]|x] w1];
        simpl in Hg; [|discriminate]. exact Hs.
    - pose proof (try_record_returns good w) as Hg. unfold bind.
      destruct (try_record good w) as [[[]|x] w1]; simpl in Hg; [|discriminate].
      rewrite (Hbad w1). cbn [snd ret]. apply same_store_printed. }
  split; [exact Hstore|].
  intros t u Hg Ht Hb Hu Hacc. destruct Hstore as [-> _].
  destruct (comment_record_effect good t u w Hg Ht Hb Hu)
    as (w' & Htry & _ & _ & Htab).
  rewrite Htry. cbn [snd]. rewrite Htab.
  by destruct (comment_table_facts w (length (requests w)) u (next_timestamp w)
                 (table w)) as [Hc _]; apply Hc.
Qed.

(** [test_lambda_handler_continues_on_error], with a record that raises
    before and after a comment by "user-123", whose counter was 5. *)
Example continues_on_error :
  ∀ batch,
    batch = [Fixtures.broken_record; Fixtures.comment_record]
    ∨ batch = [Fixtures.comment_record; Fixtures.broken_record] →
    fst (lambda_handler {| Records := Some batch |} Fixtures.activity_world)
    = Ok activity_ack
    ∧ counter (table (snd (lambda_handler {| Records := Some batch |}
                             Fixtures.activity_world))) "user-123"
      = Some 6%Z.
Proof. by intros batch [-> | ->]; vm_compute. Qed.

(** C10.  Neither store helper ever raises: each returns normally
    whatever the store answers.  So an exception of
    [process_insert_event] never comes from the store: it leaves the world
    untouched and is raised alike in every world, whatever the store would
    answer there.  In the comment branch, when the store refuses the
    counter increment, the last-active request is issued all the same; the
    counter keeps its value, and the timestamp is written if the store
    carries out the second request. *)
Theorem store_helpers_never_raise (u : string) (w : World) :
  fst (increment_comment_count u w) = Ok tt
  ∧ fst (update_last_active u w) = Ok tt
  ∧ (∀ r e w', process_insert_event r w = (Raise e, w') →
               w' = w ∧ ∀ v, process_insert_event r v = (Raise e, v))
  ∧ (∀ r t,
       extracted_table_name r = Some t → branch_of t = Comment →
       acting_user r = Some u →
       is_Some (store_fault w (length (requests w))) →
       ∃ w', process_insert_event r w = (Ok tt, w')
             ∧ requests w'
               = requests w ++ [add_request u; set_request u (next_timestamp w)]
             ∧ counter (table w') u = counter (table w) u
             ∧ (store_fault w (S (length (requests w))) = None →
                last_active (table w') u = Some (next_timestamp w))).
Proof.
  split; [by destruct (increment_comment_count_spec u w) as [line ->]|].
  split; [by destruct (update_last_active_spec u w) as [line ->]|].
  split; [intros r e w'; apply process_insert_event_raise|].
  intros r t Ht Hb Hu Hfault.
  destruct (comment_branch_effect r t u w Ht Hb Hu) as (w' & H & Hr & Htab).
  destruct (comment_table_facts w (length (requests w)) u (next_timestamp w)
              (table w)) as (_ & Hc & Hl & _).
  exists w'. rewrite Htab. by repeat split; auto.
Qed.

(** The comment of the tests on a store that refuses its first call: the
    counter stays at 5, the timestamp is written. *)
Example increment_refused :
  let w' := snd (process_insert_event Fixtures.comment_record Fixtures.flaky_world) in
  fst (process_insert_event Fixtures.comment_record Fixtures.flaky_world) = Ok tt
  ∧ counter (table w') "user-123" = Some 5%Z
  ∧ last_active (table w') "user-123" = Some "2025-01-15T10:00:00.000000Z"
  ∧ stdout w'
    = ["Error incrementing comment count for user-123: ProvisionedThroughputExceededException";
       "Updated lastActive for user user-123"].
Proof. by vm_compute. Qed.

End Updater.

(* ===================================================================== *)
(** * Extracting the table name *)
(* ===================================================================== *)

Section TableName.
Import Py Stream Observe.

Lemma append_nil_r (s : string) : s +:+ EmptyString = s.
Proof. induction s as [|x s IH]; [done|]. by rewrite append_cons, IH. Qed.

(** While no separator starts inside [pre], [split] only reads on. *)
Lemma split_from_pass (sep pre tail cur : string) :
  (∀ a b, pre = a +:+ b → b ≠ EmptyString → startswith sep (b +:+ tail) = false) →
  split_from sep 0 cur (pre +:+ tail) = split_from sep 0 (cur +:+ pre) tail.
Proof.
  revert cur. induction pre as [|c pre IH]; intros cur H.
  - by rewrite append_nil, append_nil_r.
  - rewrite append_cons. cbn [split_from].
    rewrite <- append_cons, (H EmptyString (String c pre)) by done.
    rewrite IH.
    + by rewrite append_assoc, append_cons, append_nil.
    + intros a b -> Hb. apply (H (String c a) b); [by rewrite append_cons | done].
Qed.

(** The first piece ends at the first separator. *)
Lemma split_at_first (sep pre rest : string) :
  sep ≠ EmptyString →
  (∀ a b, pre = a +:+ b → b ≠ EmptyString →
          startswith sep (b +:+ sep +:+ rest) = false) →
  split sep (pre +:+ sep +:+ rest) = pre :: split sep rest.
Proof.
  intros Hsep H. unfold split. rewrite (split_from_pass sep pre _ EmptyString H).
  rewrite append_nil. destruct sep as [|c sep']; [done|].
  rewrite append_cons. cbn [split_from]. rewrite <- append_cons.
  replace (startswith (String c sep') (String c sep' +:+ rest)) with true
    by (symmetry; apply startswith_app; by exists rest).
  replace (String.length (String c sep') - 1) with (String.length sep')
    by (simpl; lia).
  by rewrite split_from_skip.
Qed.

(** Without a separator there is one piece, the string itself. *)
Lemma split_without (sep s : string) :
  contains sep s = false → split sep s = [s].
Proof.
  intros H. unfold split. rewrite <- (append_nil_r s) at 1.
  rewrite split_from_pass; [by rewrite append_nil|].
  intros a b -> _. rewrite append_nil_r.
  destruct (startswith sep b) eqn:Hst; [|done].
  apply startswith_app in Hst as [post ->].
  assert (Hc : contains sep (a +:+ sep +:+ post) = true)
    by (apply contains_app; by exists a, post).
  congruence.
Qed.

(** The head of the pieces starts with what was read so far. *)
Lemma split_from_head (sep cur s : string) :
  ∃ q l, split_from sep 0 cur s = (cur +:+ q) :: l.
Proof.
  revert cur. induction s as [|c s IH]; intros cur; cbn [split_from].
  - exists EmptyString, []. by rewrite append_nil_r.
  - destruct (startswith sep (String c s)).
    + eexists EmptyString, _. by rewrite append_nil_r.
    + destruct (IH (cur +:+ String c EmptyString)) as (q & l & ->).
      exists (String c q), l. by rewrite append_assoc, append_cons, append_nil.
Qed.

(** A table name without "/" : no "/" starts inside it. *)
Lemma no_slash_inside (name rest : string) :
  contains "/" name = false →
  ∀ a b, name = a +:+ b → b ≠ EmptyString →
         startswith "/" (b +:+ "/" +:+ rest) = false.
Proof.
  intros H a b -> Hb. destruct b as [|c b]; [done|].
  rewrite append_cons. cbn [startswith]. case_decide as Hc; [|done]. subst c.
  assert (Hin : contains "/" (a +:+ "/" +:+ b) = true)
    by (apply contains_app; by exists a, b).
  rewrite append_cons, append_nil in Hin. congruence.
Qed.

(** A table name without ":" followed by "/": no ":table/" starts inside. *)
Lemma no_table_inside_name (name tail : string) :
  contains ":" name = false →
  ∀ a b, name +:+ "/" = a +:+ b → b ≠ EmptyString →
         startswith ":table/" (b +:+ tail) = false.
Proof.
  induction name as [|c name IH]; intros H a b Hab Hb.
  - rewrite append_nil in Hab. destruct a as [|x a].
    + rewrite append_nil in Hab. by subst b.
    + rewrite append_cons in Hab. injection Hab as <- Hab.
      destruct a; [rewrite append_nil in Hab; by subst b | discriminate Hab].
  - cbn [contains startswith] in H. apply orb_false_iff in H as [Hc Hn].
    rewrite append_cons in Hab. destruct a as [|x a].
    + rewrite append_nil in Hab. subst b. rewrite append_cons. cbn [startswith].
      case_decide as Hd; [discriminate Hc | done].
    + rewrite append_cons in Hab. injection Hab as <- Hab. by apply (IH Hn a b).
Qed.

(** The part of an ARN before ":table/": when ":table/" does not occur in
    it, no occurrence starts inside it either, since ":table/" cannot
    overlap itself. *)
Lemma no_table_inside_prefix (pre rest : string) :
  contains ":table/" pre = false →
  ∀ a b, pre = a +:+ b → b ≠ EmptyString →
         startswith ":table/" (b +:+ ":table/" +:+ rest) = false.
Proof.
  intros H a b -> Hb.
  destruct (startswith ":table/" (b +:+ ":table/" +:+ rest)) eqn:Hst; [|done].
  exfalso.
  destruct b as [|c1 [|c2 [|c3 [|c4 [|c5 [|c6 [|c7 b]]]]]]]; [done|..];
    rewrite ?append_cons, ?append_nil in Hst; cbn [startswith] in Hst;
    repeat case_decide; try done; subst.
  assert (Hin : contains ":table/" (a +:+ ":table/" +:+ b) = true)
    by (apply contains_app; by exists a, b).
  rewrite !append_cons, append_nil in Hin. congruence.
Qed.

Lemma contains_table_colon (s : string) :
  contains ":table/" s = true → contains ":" s = true.
Proof.
  rewrite !contains_app. intros (pre & post & ->).
  exists pre, ("table/" +:+ post). done.
Qed.

(** X1.  The table name both handlers extract from an ARN of the shape
    [pre:table/NAME] or [pre:table/NAME/...] is [NAME], provided ":table/"
    does not occur in [pre] and NAME contains neither "/" nor ":". *)
Theorem table_name_of_arn (r : record) (pre name tail : string) :
  eventSourceARN r = Some (pre +:+ ":table/" +:+ name +:+ tail) →
  contains ":table/" pre = false →
  contains "/" name = false →
  contains ":" name = false →
  tail = EmptyString ∨ startswith "/" tail = true →
  extracted_table_name r = Some name
  ∧ (∀ W (w : W), table_name_of r w = (Ok name, w)).
Proof.
  intros Harn Hpre Hslash Hcolon Htail.
  assert (Hname : extracted_table_name r = Some name).
  { unfold extracted_table_name. rewrite Harn. simpl.
    rewrite (split_at_first ":table/" pre (name +:+ tail))
      by (done || by apply no_table_inside_prefix).
    simpl. destruct Htail as [-> | Hst].
    - rewrite append_nil_r, split_without; simpl.
      + by rewrite split_without.
      + destruct (contains ":table/" name) eqn:Hc; [|done].
        apply contains_table_colon in Hc. congruence.
    - apply startswith_app in Hst as [tail' ->].
      rewrite <- append_assoc. unfold split.
      rewrite split_from_pass by (by apply no_table_inside_name).
      rewrite append_nil.
      destruct (split_from_head ":table/" (name +:+ "/") tail') as (q & l & ->).
      simpl. rewrite append_assoc.
      fold (split "/" (name +:+ "/" +:+ q)).
      rewrite (split_at_first "/" name q) by (done || by apply no_slash_inside).
      done. }
  split; [done|]. intros W w. by apply table_name_of_Some.
Qed.

Lemma table_name_of_arn_witness :
  extracted_table_name Fixtures.comment_record = Some "hold-that-thought-comments".
Proof.
  exact (proj1 (table_name_of_arn Fixtures.comment_record
                  "arn:aws:dynamodb:us-east-1:123456789012"
                  "hold-that-thought-comments" "/stream/2024-01-01T00:00:00.000"
                  eq_refl eq_refl eq_refl eq_refl (or_intror eq_refl))).
Defined.

(** Why the name must be free of ":": a name ending in ":table" is cut. *)
Example colon_in_table_name :
  extracted_table_name
    {| eventName := Some "INSERT";
       eventSourceARN := Some "arn:aws:dynamodb:::table/x:table/stream/1";
       dynamodb := None |}
  = Some "x".
Proof. reflexivity. Qed.

(** X2.  An ARN in which ":table/" does not occur: the subscript [[1]]
    fails.  Both [process_insert_event]s raise [IndexError] and leave their
    world untouched; the activity updater's loop body catches it, prints
    the error and goes on, having sent nothing to the store. *)
Theorem arn_without_table (r : record) (arn : string) :
  eventName r = Some "INSERT" →
  eventSourceARN r = Some arn →
  contains ":table/" arn = false →
  extracted_table_name r = None
  ∧ (∀ w, ActivityAggregator.process_insert_event r w = (Raise IndexError, w))
  ∧ (∀ w, NotificationProcessor.process_insert_event r w = (Raise IndexError, w))
  ∧ (∀ w, ActivityAggregator.try_record r w
          = (Ok tt,
             activity_printed ["Error processing record: list index out of range"] w))
  ∧ (∀ w, NotificationProcessor.try_record r w
          = (Ok tt,
             dispatcher_printed ["Error processing record: list index out of range"] w)).
Proof.
  intros He Harn Hno.
  assert (Hraise : ∀ W (w : W), table_name_of r w = (Raise IndexError, w)).
  { intros W w. unfold table_name_of, field, index, bind, ret, raise.
    rewrite Harn. cbn beta iota. by rewrite (split_without _ _ Hno). }
  assert (Ha : ∀ w, ActivityAggregator.process_insert_event r w = (Raise IndexError, w)).
  { intros w. unfold ActivityAggregator.process_insert_event.
    by rewrite (bind_raise _ _ _ _ _ (Hraise _ w)). }
  assert (Hn : ∀ w, NotificationProcessor.process_insert_event r w
                    = (Raise IndexError, w)).
  { intros w. unfold NotificationProcessor.process_insert_event.
    by rewrite (bind_raise _ _ _ _ _ (Hraise _ w)). }
  split.
  { unfold extracted_table_name. rewrite Harn. cbn [mbind option_bind].
    by rewrite (split_without _ _ Hno). }
  do 2 (split; [done|]). split; intros w.
  - by rewrite (try_record_insert r w He), Ha.
  - unfold NotificationProcessor.try_record, try_except, bind, field.
    rewrite He. cbn [ret String.eqb Ascii.eqb Bool.eqb]. by rewrite Hn.
Qed.

Lemma arn_without_table_witness :
  ActivityAggregator.process_insert_event
    {| eventName := Some "INSERT"; eventSourceARN := Some "arn:aws:sqs:queue";
       dynamodb := None |}
    Fixtures.activity_world
  = (Raise IndexError, Fixtures.activity_world).
Proof.
  exact (proj1 (proj2 (arn_without_table
                         {| eventName := Some "INSERT";
                            eventSourceARN := Some "arn:aws:sqs:queue";
                            dynamodb := None |}
                         "arn:aws:sqs:queue" eq_refl eq_refl eq_refl))
               Fixtures.activity_world).
Defined.

End TableName.

(* ===================================================================== *)
(** * The activity updater over a batch *)
(* ===================================================================== *)

Section UpdaterBatch.
Import Py Stream ActivityAggregator Observe.

(** ** Runs of requests *)

Lemma replay_app (w : World) (i : nat) (a b : list UpdateItem)
    (t : gmap string Profile) :
  replay w i (a ++ b) t = replay w (i + length a) b (replay w i a t).
Proof.
  revert i t. induction a as [|req a IH]; intros i t; simpl.
  - by rewrite Nat.add_0_r.
  - rewrite IH. f_equal. lia.
Qed.

Lemma replay_store (w1 w : World) (i : nat) (reqs : list UpdateItem)
    (t : gmap string Profile) :
  store_fault w1 = store_fault w → replay w1 i reqs t = replay w i reqs t.
Proof.
  intros H. revert i t. induction reqs as [|req reqs IH]; intros i t; simpl; [done|].
  rewrite IH. unfold served. by rewrite H.
Qed.

Lemma sets_app (a b : list UpdateItem) : sets (a ++ b) = sets a + sets b.
Proof.
  induction a as [|req a IH]; simpl; [done|].
  destruct (Expression req); lia.
Qed.

Lemma well_stamped_app (w : World) (c : nat) (a b : list UpdateItem) :
  well_stamped w c (a ++ b) ↔ well_stamped w c a ∧ well_stamped w (c + sets a) b.
Proof.
  revert c. induction a as [|req a IH]; intros c; simpl.
  - rewrite Nat.add_0_r. tauto.
  - destruct (Expression req).
    + rewrite IH. tauto.
    + rewrite IH. replace (S c + sets a) with (c + S (sets a)) by lia. tauto.
Qed.

Lemma well_stamped_clock (w1 w : World) (c : nat) (reqs : list UpdateItem) :
  utcnow_isoformat w1 = utcnow_isoformat w →
  well_stamped w1 c reqs ↔ well_stamped w c reqs.
Proof.
  intros H. revert c. induction reqs as [|req reqs IH]; intros c; simpl; [done|].
  destruct (Expression req); rewrite IH, ?H; tauto.
Qed.

(** Stamped requests are requests of the handler. *)
Lemma well_stamped_sent (w : World) (c : nat) (reqs : list UpdateItem) :
  well_stamped w c reqs → Forall (λ req, sent_by_handler req = true) reqs.
Proof.
  revert c. induction reqs as [|req reqs IH]; intros c; simpl; [constructor|].
  destruct (Expression req) as [inc|now] eqn:He; intros [-> H];
    (constructor; [|by eapply IH]); unfold sent_by_handler; rewrite He.
  - by apply bool_decide_eq_true_2.
  - apply endswith_app.
Qed.

(** ** Worlds that grow *)

Lemma grows_refl (w : World) : grows 0 w w.
Proof. exists []. simpl. rewrite app_nil_r, Nat.add_0_r. by repeat split. Qed.

Lemma grows_weaken (n k : nat) (w w' : World) : n ≤ k → grows n w w' → grows k w w'.
Proof.
  intros Hnk (reqs & Hr & Hl & H). exists reqs. split; [done|]. split; [lia | done].
Qed.

Lemma grows_trans (n k : nat) (w w1 w2 : World) :
  grows n w w1 → grows k w1 w2 → grows (n + k) w w2.
Proof.
  intros (r1 & Hr1 & Hl1 & Hs1 & Hc1 & Ht1 & Hf1 & Hu1)
         (r2 & Hr2 & Hl2 & Hs2 & Hc2 & Ht2 & Hf2 & Hu2).
  exists (r1 ++ r2). repeat split.
  - by rewrite Hr2, Hr1, app_assoc.
  - rewrite length_app. lia.
  - apply well_stamped_app. split; [done|].
    rewrite <- Hc1. by apply (well_stamped_clock w1 w).
  - rewrite Hc2, Hc1, sets_app. lia.
  - rewrite Ht2, Ht1, Hr1, length_app, replay_app. by apply replay_store.
  - congruence.
  - congruence.
Qed.

Lemma grows_printed (lines : list string) (w : World) :
  grows 0 w (activity_printed lines w).
Proof. exists []. simpl. rewrite app_nil_r, Nat.add_0_r. by repeat split. Qed.

(** ** Computations that send a bounded number of requests *)

Lemma bounded_weaken {A} (n k : nat) (m : M World A) :
  n ≤ k → bounded n m → bounded k m.
Proof. intros Hnk H w. by apply (grows_weaken n k). Qed.

Lemma bounded_ret {A} (a : A) : bounded 0 (@ret World A a).
Proof. intros w. apply grows_refl. Qed.

Lemma bounded_raise {A} (e : exn) : bounded 0 (@raise World A e).
Proof. intros w. apply grows_refl. Qed.

Lemma bounded_print (line : string) : bounded 0 (print line).
Proof. intros w. apply (grows_printed [line]). Qed.

Lemma bounded_getitem {V} (d : gmap string V) (k : string) :
  bounded 0 (@getitem World V d k).
Proof. unfold getitem. destruct (d !! k); [apply bounded_ret | apply bounded_raise]. Qed.

Lemma bounded_field {V} (k : string) (o : option V) : bounded 0 (@field World V k o).
Proof. destruct o; [apply bounded_ret | apply bounded_raise]. Qed.

Lemma bounded_index {V} (l : list V) (i : nat) : bounded 0 (@index World V l i).
Proof. unfold index. destruct (l !! i); [apply bounded_ret | apply bounded_raise]. Qed.

Lemma bounded_bind {A B} (n k : nat) (m : M World A) (f : A → M World B) :
  bounded n m → (∀ a, bounded k (f a)) → bounded (n + k) (bind m f).
Proof.
  intros Hm Hf w. unfold bind. specialize (Hm w).
  destruct (m w) as [[a|e] w1]; simpl in Hm.
  - eapply grows_trans; [exact Hm | apply Hf].
  - eapply grows_weaken; [|exact Hm]. lia.
Qed.

Lemma bounded_try_except {A} (n k : nat) (m : M World A) (h : exn → M World A) :
  bounded n m → (∀ e, bounded k (h e)) → bounded (n + k) (try_except m h).
Proof.
  intros Hm Hh w. unfold try_except. specialize (Hm w).
  destruct (m w) as [[a|e] w1]; simpl in Hm.
  - eapply grows_weaken; [|exact Hm]. lia.
  - eapply grows_trans; [exact Hm | apply Hh].
Qed.

Lemma bounded_for_each {A} (k : nat) (xs : list A) (body : A → M World unit) :
  (∀ x, bounded k (body x)) → bounded (k * length xs) (for_each xs body).
Proof.
  intros Hbody. induction xs as [|x xs IH]; simpl.
  - rewrite Nat.mul_0_r. apply bounded_ret.
  - replace (k * S (length xs)) with (k + k * length xs) by lia.
    apply bounded_bind; [apply Hbody | intros _; apply IH].
Qed.

(** Each helper sends one request, whatever the store answers. *)
Lemma bounded_increment_comment_count (u : string) :
  bounded 1 (increment_comment_count u).
Proof.
  intros w.
  destruct (increment_comment_count_effect u w) as (w' & -> & Hr & Ht & Hc & Hf & Hu).
  exists [add_request u]. simpl. rewrite Nat.add_0_r. by repeat split.
Qed.

Lemma bounded_update_last_active (u : string) :
  bounded 1 (update_last_active u).
Proof.
  intros w.
  destruct (update_last_active_effect u w) as (w' & -> & Hr & Ht & Hc & Hf & Hu).
  exists [set_request u (next_timestamp w)]. simpl. repeat split; try done. lia.
Qed.

Lemma bounded_process_insert_event (r : record) : bounded 2 (process_insert_event r).
Proof.
  unfold process_insert_event, table_name_of, new_image_of.
  apply (bounded_bind 0 2);
    [repeat (apply (bounded_bind 0 0)
             || apply bounded_field || apply bounded_index || intros ?)|].
  intros t.
  apply (bounded_bind 0 2);
    [apply (bounded_bind 0 0); [apply bounded_field | intros ?; apply bounded_getitem]|].
  intros img. destruct (branch_of t).
  - apply (bounded_bind 0 2); [apply bounded_getitem|]. intros a.
    apply (bounded_bind 0 2); [apply bounded_getitem|]. intros u.
    apply (bounded_bind 1 1);
      [apply bounded_increment_comment_count
      | intros _; apply bounded_update_last_active].
  - destruct (get img "senderId" ∅ !! "S") as [s|];
      [|apply (bounded_weaken 0); [lia | apply bounded_ret]].
    destruct (String.eqb s "");
      [apply (bounded_weaken 0); [lia | apply bounded_ret]
      |apply (bounded_weaken 1); [lia | apply bounded_update_last_active]].
  - apply (bounded_bind 0 2); [apply bounded_getitem|]. intros a.
    apply (bounded_bind 0 2); [apply bounded_getitem|]. intros u.
    apply (bounded_weaken 1); [lia | apply bounded_update_last_active].
  - apply (bounded_weaken 0); [lia | apply bounded_ret].
Qed.

Lemma bounded_try_record (r : record) : bounded 2 (try_record r).
Proof.
  unfold try_record.
  apply (bounded_try_except 2 0); [|intros e; apply bounded_print].
  apply (bounded_bind 0 2); [apply bounded_field|]. intros name.
  destruct (String.eqb name "INSERT");
    [apply bounded_process_insert_event
    |apply (bounded_weaken 0); [lia | apply bounded_ret]].
Qed.

Lemma grows_lambda_handler (batch : list record) (w : World) :
  grows (2 * length batch) w (snd (lambda_handler {| Records := Some batch |} w)).
Proof.
  rewrite lambda_handler_unfold. cbn [snd].
  set (line := "Processing " +:+ pretty (length batch) +:+ " records").
  exact (grows_trans 0 _ _ _ _ (grows_printed [line] w)
           (bounded_for_each 2 batch try_record bounded_try_record
              (activity_printed [line] w))).
Qed.

(** ** What an accepted request does to a row *)

Lemma served_keeps (w : World) (i : nat) (req : UpdateItem)
    (t : gmap string Profile) (u : string) :
  sent_by_handler req = true →
  (is_Some (t !! u) → is_Some (served w i req t !! u))
  ∧ (default 0 (counter t u) ≤ default 0 (counter (served w i req t) u))%Z
  ∧ (is_Some (last_active t u) → is_Some (last_active (served w i req t) u)).
Proof.
  intros Hsent. unfold served. destruct (store_fault w i); [by repeat split|].
  destruct req as [k [inc|now]]; unfold sent_by_handler in Hsent; simpl in Hsent.
  - apply bool_decide_eq_true_1 in Hsent as ->.
    unfold apply_update, counter, last_active. simpl.
    destruct (decide (k = u)) as [->|Hne].
    + rewrite lookup_insert_eq. simpl.
      destruct (t !! u) as [[[c|] l]|]; simpl; repeat split; eauto; lia.
    + rewrite lookup_insert_ne by done. by repeat split.
  - unfold apply_update, counter, last_active. simpl.
    destruct (decide (k = u)) as [->|Hne].
    + rewrite lookup_insert_eq. simpl.
      destruct (t !! u) as [[c l]|]; simpl; repeat split; eauto; lia.
    + rewrite lookup_insert_ne by done. by repeat split.
Qed.

Lemma replay_keeps (w : World) (i : nat) (reqs : list UpdateItem)
    (t : gmap string Profile) (u : string) :
  Forall (λ req, sent_by_handler req = true) reqs →
  (is_Some (t !! u) → is_Some (replay w i reqs t !! u))
  ∧ (default 0 (counter t u) ≤ default 0 (counter (replay w i reqs t) u))%Z
  ∧ (is_Some (last_active t u) → is_Some (last_active (replay w i reqs t) u)).
Proof.
  intros H. revert i t. induction H as [|req reqs Hreq _ IH]; intros i t; simpl.
  - by repeat split.
  - destruct (served_keeps w i req t u Hreq) as (H1 & H2 & H3).
    destruct (IH (S i) (served w i req t)) as (H4 & H5 & H6).
    repeat split; eauto. lia.
Qed.

(** ** The handler over any batch *)

(** X3.  Over any batch and whatever the store answers, the activity
    updater only appends to the request log, at most two requests per
    record, and every request it sends either adds exactly 1 to a comment
    counter or sets a last-active timestamp ending in "Z". *)
Theorem handler_requests (batch : list record) (w : World) :
  ∃ reqs,
    requests (snd (lambda_handler {| Records := Some batch |} w))
    = requests w ++ reqs
    ∧ length reqs ≤ 2 * length batch
    ∧ Forall (λ req, sent_by_handler req = true) reqs.
Proof.
  destruct (grows_lambda_handler batch w) as (reqs & Hr & Hl & Hs & _).
  exists reqs. repeat split; [done | done |]. by eapply well_stamped_sent.
Qed.

(** X4.  Over any batch the clock is read once for every timestamp
    request and never otherwise, and the timestamps written are the
    successive readings of the clock, each followed by "Z". *)
Theorem handler_timestamps (batch : list record) (w : World) :
  ∃ reqs,
    requests (snd (lambda_handler {| Records := Some batch |} w))
    = requests w ++ reqs
    ∧ well_stamped w (clock_reads w) reqs
    ∧ clock_reads (snd (lambda_handler {| Records := Some batch |} w))
      = clock_reads w + sets reqs.
Proof.
  destruct (grows_lambda_handler batch w) as (reqs & Hr & Hl & Hs & Hc & _).
  by exists reqs.
Qed.

(** X5.  Over any batch and whatever the store answers, the table after
    the handler is what the store made of the requests sent, in order; so
    no row disappears, no comment counter decreases, and no last-active
    timestamp is erased. *)
Theorem handler_table_monotone (batch : list record) (w : World) :
  let w' := snd (lambda_handler {| Records := Some batch |} w) in
  (∃ reqs, requests w' = requests w ++ reqs
           ∧ table w' = replay w (length (requests w)) reqs (table w))
  ∧ ∀ u,
      (is_Some (table w !! u) → is_Some (table w' !! u))
      ∧ (default 0 (counter (table w) u) ≤ default 0 (counter (table w') u))%Z
      ∧ (is_Some (last_active (table w) u) → is_Some (last_active (table w') u)).
Proof.
  intros w'. subst w'.
  destruct (grows_lambda_handler batch w) as (reqs & Hr & Hl & Hs & Hc & Ht & _).
  split; [by exists reqs|]. intros u. rewrite Ht.
  apply replay_keeps. by eapply well_stamped_sent.
Qed.

(** Comments by one user on a store that answers every call. *)
Lemma for_each_comments (u : string) (batch : list record) (w : World) :
  Forall (comment_by u) batch →
  (∀ i, store_fault w i = None) →
  default 0%Z (counter (table (snd (for_each batch try_record w))) u)
  = (default 0 (counter (table w) u) + Z.of_nat (length batch))%Z.
Proof.
  intros H. revert w. induction H as [|r batch Hr _ IH]; intros w Hok.
  - simpl. lia.
  - destruct Hr as (He & (t & Ht & Hb) & Hu).
    destruct (comment_record_effect r t u w He Ht Hb Hu) as (w1 & H1 & _ & _ & Htab).
    cbn [for_each]. rewrite (bind_ok _ _ _ _ _ H1).
    pose proof (bounded_try_record r w) as (reqs & _ & _ & _ & _ & _ & Hf & _).
    rewrite H1 in Hf. cbn [snd] in Hf.
    rewrite IH by (intros i; by rewrite Hf).
    destruct (comment_table_facts w (length (requests w)) u (next_timestamp w)
                (table w)) as (Hc & _).
    rewrite Htab, (Hc (Hok _)). simpl. lia.
Qed.

(** X6.  A batch of [k] comment inserts, all written by user [u], on a
    store that carries out every request: the comment counter of [u] ends
    [k] above where it started (a missing counter counting as 0). *)
Theorem comments_add_up (u : string) (batch : list record) (w : World) :
  Forall (comment_by u) batch →
  (∀ i, store_fault w i = None) →
  default 0%Z (counter (table (snd (lambda_handler {| Records := Some batch |} w))) u)
  = (default 0 (counter (table w) u) + Z.of_nat (length batch))%Z.
Proof.
  intros H Hok. rewrite lambda_handler_unfold. cbn [snd].
  by rewrite for_each_comments.
Qed.

Lemma comments_add_up_witness :
  default 0%Z
    (counter (table (snd (lambda_handler
                            {| Records := Some [Fixtures.comment_record;
                                                Fixtures.comment_record;
                                                Fixtures.comment_record] |}
                            Fixtures.activity_world))) "user-123")
  = 8%Z.
Proof.
  rewrite (comments_add_up "user-123").
  - vm_compute. reflexivity.
  - repeat constructor; try (vm_compute; reflexivity);
      exists "hold-that-thought-comments"; split; vm_compute; reflexivity.
  - intros i. reflexivity.
Defined.

End UpdaterBatch.

(* ===================================================================== *)
(** * One record through the activity updater *)
(* ===================================================================== *)

Section UpdaterRecord.
Import Py Stream ActivityAggregator Observe.

(** X7.  An insert event that the activity updater classifies as a
    reaction, made by user [u]: the one request sent sets the last-active
    timestamp of [u] to the clock reading followed by "Z"; nothing raises,
    no comment counter changes and no other row changes; where the store
    carries out the request the timestamp of [u] is that string. *)
Theorem reaction_event_effect (r : record) (t u : string) (w : World) :
  eventName r = Some "INSERT" →
  extracted_table_name r = Some t → branch_of t = Reaction →
  acting_user r = Some u →
  let now := next_timestamp w in
  ∃ w', process_insert_event r w = (Ok tt, w')
        ∧ try_record r w = (Ok tt, w')
        ∧ requests w' = requests w ++ [set_request u now]
        ∧ endswith "Z" now = true
        ∧ (∀ v, counter (table w') v = counter (table w) v)
        ∧ (∀ v, v ≠ u → table w' !! v = table w !! v)
        ∧ (store_fault w (length (requests w)) = None →
           last_active (table w') u = Some now).
Proof.
  intros He Ht Hb Hu now.
  destruct (reaction_branch_effect r t u w Ht Hb Hu) as (w' & H & Hr & Htab).
  destruct (set_table_facts w (length (requests w)) u now (table w)) as (Hc & Hl & Ho).
  exists w'. rewrite (try_record_insert r w He), H, Htab.
  repeat split; try done. apply endswith_app.
Qed.

Lemma reaction_event_effect_witness :
  ∃ w', try_record Fixtures.reaction_record Fixtures.activity_world = (Ok tt, w')
        ∧ counter (table w') "user-123" = Some 5%Z
        ∧ last_active (table w') "user-789" = Some "2025-01-15T10:00:00.000000Z".
Proof.
  destruct (reaction_event_effect Fixtures.reaction_record
              "hold-that-thought-comment-reactions" "user-789"
              Fixtures.activity_world eq_refl eq_refl eq_refl eq_refl)
    as (w' & _ & H & _ & _ & Hc & _ & Hl).
  exists w'. split; [exact H|]. split.
  - rewrite Hc. reflexivity.
  - exact (Hl eq_refl).
Defined.

(** A comment or reaction image without ['userId']['S']: a [KeyError],
    the same in every world. *)
Lemma missing_user_raises (r : record) (t : string) :
  extracted_table_name r = Some t →
  branch_of t = Comment ∨ branch_of t = Reaction →
  is_Some (new_image r) → acting_user r = None →
  ∃ e, ∀ w, process_insert_event r w = (Raise e, w).
Proof.
  intros Ht Hb [img Hi] Hu. unfold acting_user in Hu. rewrite Hi in Hu. simpl in Hu.
  destruct (img !! "userId") as [a|] eqn:Ha; simpl in Hu.
  - exists (KeyError "S"). intros w. unfold process_insert_event.
    rewrite (bind_ok _ _ _ _ _ (table_name_of_Some r t w Ht)).
    rewrite (bind_ok _ _ _ _ _ (new_image_of_Some r img w Hi)).
    destruct Hb as [-> | ->];
      rewrite (bind_ok _ _ _ _ _ (getitem_Some img "userId" a w Ha));
      by rewrite (bind_raise _ _ _ _ _ (getitem_None a "S" w Hu)).
  - exists (KeyError "userId"). intros w. unfold process_insert_event.
    rewrite (bind_ok _ _ _ _ _ (table_name_of_Some r t w Ht)).
    rewrite (bind_ok _ _ _ _ _ (new_image_of_Some r img w Hi)).
    destruct Hb as [-> | ->];
      by rewrite (bind_raise _ _ _ _ _ (getitem_None img "userId" w Ha)).
Qed.

(** X8.  When [process_insert_event] of the activity updater raises:
    exactly when no table name can be extracted from the ARN, or the record
    has no new image, or the table is a comment or reaction table and the
    image has no ['userId']['S'].  A message without sender and an unknown
    table never raise, and neither does any answer of the store.  When it
    raises, the world is as it was. *)
Theorem process_insert_event_raises_iff (r : record) (w : World) :
  ((∃ e, fst (process_insert_event r w) = Raise e)
   ↔ extracted_table_name r = None
     ∨ new_image r = None
     ∨ ((∃ t, extracted_table_name r = Some t
              ∧ (branch_of t = Comment ∨ branch_of t = Reaction))
        ∧ acting_user r = None))
  ∧ (∀ e, fst (process_insert_event r w) = Raise e →
          snd (process_insert_event r w) = w).
Proof.
  split.
  2:{ intros e He. destruct (process_insert_event r w) as [x w'] eqn:Hp.
      simpl in He. subst x. by destruct (process_insert_event_raise r e w w' Hp). }
  destruct (extracted_table_name r) as [t|] eqn:Ht.
  2:{ split; [by left|]. intros _.
      destruct (table_name_of_None (W:=World) r Ht) as [e He]. exists e.
      unfold process_insert_event. by rewrite (bind_raise _ _ _ _ _ (He w)). }
  destruct (new_image r) as [img|] eqn:Hi.
  2:{ split; [by right; left|]. intros _.
      destruct (new_image_of_None (W:=World) r Hi) as [e He]. exists e.
      unfold process_insert_event.
      rewrite (bind_ok _ _ _ _ _ (table_name_of_Some r t w Ht)).
      by rewrite (bind_raise _ _ _ _ _ (He w)). }
  assert (Hok : (∃ w', process_insert_event r w = (Ok tt, w')) →
                ¬ ∃ e, fst (process_insert_event r w) = Raise e).
  { intros [w' ->] [e He]. discriminate He. }
  destruct (acting_user r) as [u|] eqn:Hu.
  - split; [|intros [Hx|[Hx|[_ Hx]]]; discriminate Hx].
    intros Hraise. exfalso. revert Hraise. apply Hok.
    destruct (branch_of t) eqn:Hb.
    + destruct (comment_branch_effect r t u w Ht Hb Hu) as (w' & H & _). by exists w'.
    + pose proof (message_branch_effect r t w Ht Hb (ex_intro _ img Hi)) as H.
      destruct (sender r) as [s|]; [|by exists w].
      destruct (String.eqb s ""); [by exists w|].
      destruct H as (w' & H & _). by exists w'.
    + destruct (reaction_branch_effect r t u w Ht Hb Hu) as (w' & H & _). by exists w'.
    + exists w. by apply (ignored_branch_effect r t w Ht Hb (ex_intro _ img Hi)).
  - destruct (branch_of t) eqn:Hb.
    + split; [intros _; right; right; split; [exists t|]; auto|]. intros _.
      destruct (missing_user_raises r t Ht (or_introl Hb) (ex_intro _ img Hi) Hu)
        as [e He].
      exists e. by rewrite He.
    + split; [|intros [Hx|[Hx|[(t' & Ht' & Hb') _]]]; try discriminate Hx;
               injection Ht' as <-; destruct Hb'; congruence].
      intros Hraise. exfalso. revert Hraise. apply Hok.
      pose proof (message_branch_effect r t w Ht Hb (ex_intro _ img Hi)) as H.
      destruct (sender r) as [s|]; [|by exists w].
      destruct (String.eqb s ""); [by exists w|].
      destruct H as (w' & H & _). by exists w'.
    + split; [intros _; right; right; split; [exists t|]; auto|]. intros _.
      destruct (missing_user_raises r t Ht (or_intror Hb) (ex_intro _ img Hi) Hu)
        as [e He].
      exists e. by rewrite He.
    + split; [|intros [Hx|[Hx|[(t' & Ht' & Hb') _]]]; try discriminate Hx;
               injection Ht' as <-; destruct Hb'; congruence].
      intros Hraise. exfalso. revert Hraise. apply Hok.
      exists w. by apply (ignored_branch_effect r t w Ht Hb (ex_intro _ img Hi)).
Qed.

End UpdaterRecord.

(* ===================================================================== *)
(** * The two handlers side by side *)
(* ===================================================================== *)

Section Handlers.
Import Py Stream Observe.

Lemma lower_ascii_idempotent (c : ascii) : lower_ascii (lower_ascii c) = lower_ascii c.
Proof. by destruct c as [[] [] [] [] [] [] [] []]. Qed.

Lemma lower_idempotent (s : string) : lower (lower s) = lower s.
Proof.
  induction s as [|c s IH]; simpl; [done|]. by rewrite lower_ascii_idempotent, IH.
Qed.

(** X9.  Classification ignores letter case in both handlers: a table
    name and its lower-case form take the same branch, and so do any two
    names that differ in case only. *)
Theorem classification_ignores_case (t1 t2 : string) :
  (lower t1 = lower t2 →
   ActivityAggregator.branch_of t1 = ActivityAggregator.branch_of t2
   ∧ NotificationProcessor.branch_of t1 = NotificationProcessor.branch_of t2)
  ∧ ActivityAggregator.branch_of (lower t1) = ActivityAggregator.branch_of t1
  ∧ NotificationProcessor.branch_of (lower t1) = NotificationProcessor.branch_of t1.
Proof.
  unfold ActivityAggregator.branch_of, NotificationProcessor.branch_of. cbv zeta.
  rewrite lower_idempotent. split; [by intros ->|done].
Qed.

Example upper_case_table_name :
  ActivityAggregator.branch_of "HoldThatThought-COMMENTS" = Comment
  ∧ NotificationProcessor.branch_of "HoldThatThought-Messages" = Message.
Proof. by vm_compute. Qed.

(** X10.  The two classifiers compared on every table name.  Without
    "reaction" in the name they take the same branch.  With it, the
    activity updater takes the message branch if the name has "message" and
    the reaction branch otherwise, while the dispatcher takes the comment
    branch if the name has "comment" and the reaction branch otherwise. *)
Theorem classifiers_compared (t : string) :
  let comment := contains "comment" (lower t) in
  let message := contains "message" (lower t) in
  let reaction := contains "reaction" (lower t) in
  (reaction = false →
   ActivityAggregator.branch_of t = NotificationProcessor.branch_of t
   ∧ ActivityAggregator.branch_of t
     = if comment then Comment else if message then Message else Ignored)
  ∧ (reaction = true →
     ActivityAggregator.branch_of t = (if message then Message else Reaction)
     ∧ NotificationProcessor.branch_of t = (if comment then Comment else Reaction)).
Proof.
  unfold ActivityAggregator.branch_of, NotificationProcessor.branch_of. cbv zeta.
  destruct (contains "comment" (lower t)), (contains "message" (lower t)),
    (contains "reaction" (lower t)); simpl; split; intros H; try discriminate H; done.
Qed.

(** X11.  The only way either handler fails: an event without the
    ['Records'] key raises [KeyError('Records')] before anything is printed
    or sent; with the key present the handler returns its acknowledgement,
    whatever the records hold and whatever the store answers. *)
Theorem handlers_fail_only_without_records (ev : event) :
  (∀ w, (∃ w', ActivityAggregator.lambda_handler ev w = (Ok activity_ack, w'))
        ↔ is_Some (Records ev))
  ∧ (∀ w, (∃ w', NotificationProcessor.lambda_handler ev w = (Ok dispatcher_ack, w'))
          ↔ is_Some (Records ev))
  ∧ (Records ev = None →
     (∀ w, ActivityAggregator.lambda_handler ev w = (Raise (KeyError "Records"), w))
     ∧ (∀ w, NotificationProcessor.lambda_handler ev w
             = (Raise (KeyError "Records"), w))).
Proof.
  destruct ev as [[batch|]].
  - split; [|split; [|done]]; intros w; (split; [by eexists|intros _]).
    + eexists. apply lambda_handler_unfold.
    + unfold NotificationProcessor.lambda_handler. simpl. unfold bind at 1. simpl.
      unfold bind at 1. rewrite print_printed.
      destruct (dispatcher_for_each_world batch
                  (dispatcher_printed
                     ["Processing " +:+ pretty (length batch) +:+ " records"] w))
        as [lines Hl].
      unfold bind. rewrite Hl. by eexists.
  - split; [|split; [|done]]; intros w;
      (split; [intros [w' H]; discriminate H | intros [x Hx]; discriminate Hx]).
Qed.

End Handlers.

(* ===================================================================== *)
(** * The notification functions *)
(* ===================================================================== *)

Section Notifications.
Import Py Stream NotificationProcessor Observe.

(** ** Slices *)

Lemma slice_to_length (n : nat) (s : string) : String.length (slice_to n s) ≤ n.
Proof.
  revert s. induction n as [|n IH]; intros [|c s]; simpl; try lia.
  specialize (IH s). lia.
Qed.

Lemma slice_to_prefix (n : nat) (s : string) : startswith (slice_to n s) s = true.
Proof.
  revert s. induction n as [|n IH]; intros [|c s]; simpl; try done.
  by rewrite decide_True.
Qed.

Lemma slice_to_all (n : nat) (s : string) :
  String.length s ≤ n → slice_to n s = s.
Proof.
  revert s. induction n as [|n IH]; intros [|c s]; simpl; try done; try lia.
  intros H. rewrite IH; [done | lia].
Qed.

(** ** Reading a typed attribute *)

(** [img[k]['S']] followed by the rest of the function. *)
Lemma getitem_S_bind {B} (img : Image) (k : string) (f : string → M World B)
    (w : World) :
  bind (getitem img k) (λ a, bind (getitem a "S") f) w
  = match attribute_S img k with
    | Some v => f v w
    | None =>
        (Raise (KeyError (match img !! k with Some _ => "S" | None => k end)), w)
    end.
Proof.
  unfold attribute_S, bind, getitem, ret, raise.
  destruct (img !! k) as [a|]; simpl; [|done]. by destruct (a !! "S").
Qed.

(** ** Sending *)

(** X12.  [send_email] never raises.  It hands SES exactly one message,
    from the configured sender address to the one recipient, and returns
    [True] with the line "Email sent ..." when SES accepts it, [False] with
    the line "Error sending email ..." when SES refuses it. *)
Theorem send_email_result (to_email subject body_html : string) (w : World) :
  let w' := snd (send_email to_email subject body_html w) in
  outbox w' = outbox w ++ [ {| Source := default "noreply@holdthatthought.family"
                                           (env_SES_FROM_EMAIL w);
                               ToAddresses := [to_email];
                               Subject := subject; Html := body_html |} ]
  ∧ env_SES_FROM_EMAIL w' = env_SES_FROM_EMAIL w
  ∧ ses_reply w' = ses_reply w
  ∧ match ses_reply w (length (outbox w)) with
    | Accepted message_id =>
        fst (send_email to_email subject body_html w) = Ok true
        ∧ stdout w' = stdout w ++ ["Email sent to " +:+ to_email +:+ ": " +:+ message_id]
    | Rejected msg =>
        fst (send_email to_email subject body_html w) = Ok false
        ∧ stdout w' = stdout w ++ ["Error sending email to " +:+ to_email +:+ ": " +:+ msg]
    end.
Proof.
  unfold send_email, try_except, bind, ses_send_email, SES_FROM_EMAIL.
  by destruct (ses_reply w (length (outbox w))).
Qed.

(** ** The three branches *)

(** X13.  [process_comment_notification] needs the string attributes
    itemId, commentId, userId and commentText.  With all four it returns
    and prints one line, in which a missing userName reads "Someone", a
    missing itemTitle reads "a letter", and the comment is cut to its
    first 50 characters (kept whole when it has no more).  With any of them
    missing it raises a [KeyError] and prints nothing. *)
Theorem comment_notification_fields (img : Image) (w : World) :
  match attribute_S img "itemId", attribute_S img "commentId",
        attribute_S img "userId", attribute_S img "commentText" with
  | Some _, Some _, Some _, Some text =>
      process_comment_notification img w
      = (Ok tt,
         dispatcher_printed
           ["New comment by " +:+ attribute_S_or img "userName" "Someone"
            +:+ " on " +:+ attribute_S_or img "itemTitle" "a letter"
            +:+ ": " +:+ slice_to 50 text +:+ "..."] w)
      ∧ String.length (slice_to 50 text) ≤ 50
      ∧ startswith (slice_to 50 text) text = true
      ∧ (String.length text ≤ 50 → slice_to 50 text = text)
  | _, _, _, _ =>
      ∃ k, process_comment_notification img w = (Raise (KeyError k), w)
  end.
Proof.
  unfold process_comment_notification. rewrite getitem_S_bind.
  destruct (attribute_S img "itemId"); [|by eexists].
  rewrite getitem_S_bind.
  destruct (attribute_S img "commentId"); [|by eexists].
  rewrite getitem_S_bind.
  destruct (attribute_S img "userId"); [|by eexists].
  rewrite getitem_S_bind.
  destruct (attribute_S img "commentText") as [text|]; [|by eexists].
  split; [done|]. split; [apply slice_to_length|].
  split; [apply slice_to_prefix | apply slice_to_all].
Qed.

(** X14.  [process_message_notification] needs the string attributes
    conversationId, senderId and messageText.  With all three it returns
    and prints one line, in which a missing senderName reads "Someone" and
    the message is cut to its first 50 characters.  With any of them missing
    it raises a [KeyError] and prints nothing. *)
Theorem message_notification_fields (img : Image) (w : World) :
  match attribute_S img "conversationId", attribute_S img "senderId",
        attribute_S img "messageText" with
  | Some _, Some _, Some text =>
      process_message_notification img w
      = (Ok tt,
         dispatcher_printed
           ["New message from " +:+ attribute_S_or img "senderName" "Someone"
            +:+ ": " +:+ slice_to 50 text +:+ "..."] w)
      ∧ String.length (slice_to 50 text) ≤ 50
      ∧ startswith (slice_to 50 text) text = true
      ∧ (String.length text ≤ 50 → slice_to 50 text = text)
  | _, _, _ =>
      ∃ k, process_message_notification img w = (Raise (KeyError k), w)
  end.
Proof.
  unfold process_message_notification. rewrite getitem_S_bind.
  destruct (attribute_S img "conversationId"); [|by eexists].
  rewrite getitem_S_bind.
  destruct (attribute_S img "senderId"); [|by eexists].
  rewrite getitem_S_bind.
  destruct (attribute_S img "messageText") as [text|]; [|by eexists].
  split; [done|]. split; [apply slice_to_length|].
  split; [apply slice_to_prefix | apply slice_to_all].
Qed.

(** X15.  [process_reaction_notification] needs the string attributes
    commentId and userId.  With both it returns and prints one line naming
    them; with either missing it raises a [KeyError] and prints nothing. *)
Theorem reaction_notification_fields (img : Image) (w : World) :
  match attribute_S img "commentId", attribute_S img "userId" with
  | Some comment_id, Some user_id =>
      process_reaction_notification img w
      = (Ok tt,
         dispatcher_printed
           ["New reaction from " +:+ user_id +:+ " on comment " +:+ comment_id] w)
  | _, _ =>
      ∃ k, process_reaction_notification img w = (Raise (KeyError k), w)
  end.
Proof.
  unfold process_reaction_notification. rewrite getitem_S_bind.
  destruct (attribute_S img "commentId"); [|by eexists].
  rewrite getitem_S_bind.
  destruct (attribute_S img "userId"); [|by eexists].
  done.
Qed.

(** The tests with missing optional fields. *)
Example notifications_with_defaults :
  stdout (snd (process_comment_notification Fixtures.comment_image
                 Fixtures.notification_world))
  = ["New comment by Someone on a letter: Great letter!..."]
  ∧ stdout (snd (process_message_notification Fixtures.message_image
                   Fixtures.notification_world))
    = ["New message from Someone: Hello!..."]
  ∧ stdout (snd (process_reaction_notification Fixtures.reaction_image
                   Fixtures.notification_world))
    = ["New reaction from user-456 on comment 2025-01-15T10:00:00.000Z#abc"].
Proof. by vm_compute. Qed.

(** ** One line per record *)

(** Each branch either raises in the world it found or prints one line. *)
Lemma notification_one_line (t : string) (img : Image) (w : World) :
  let f := match branch_of t with
           | Comment => process_comment_notification img
           | Reaction => process_reaction_notification img
           | Message => process_message_notification img
           | Ignored => ret tt
           end in
  (∃ e, f w = (Raise e, w))
  ∨ (∃ lines, length lines ≤ 1 ∧ f w = (Ok tt, dispatcher_printed lines w)).
Proof.
  destruct (branch_of t); cbv zeta.
  - pose proof (comment_notification_fields img w) as H.
    destruct (attribute_S img "itemId"); [|destruct H as [k H]; left; by eexists].
    destruct (attribute_S img "commentId"); [|destruct H as [k H]; left; by eexists].
    destruct (attribute_S img "userId"); [|destruct H as [k H]; left; by eexists].
    destruct (attribute_S img "commentText"); [|destruct H as [k H]; left; by eexists].
    destruct H as [H _]. right. eexists [_]. split; [simpl; lia | exact H].
  - pose proof (message_notification_fields img w) as H.
    destruct (attribute_S img "conversationId");
      [|destruct H as [k H]; left; by eexists].
    destruct (attribute_S img "senderId"); [|destruct H as [k H]; left; by eexists].
    destruct (attribute_S img "messageText"); [|destruct H as [k H]; left; by eexists].
    destruct H as [H _]. right. eexists [_]. split; [simpl; lia | exact H].
  - pose proof (reaction_notification_fields img w) as H.
    destruct (attribute_S img "commentId"); [|destruct H as [k H]; left; by eexists].
    destruct (attribute_S img "userId"); [|destruct H as [k H]; left; by eexists].
    right. eexists [_]. split; [simpl; lia | exact H].
  - right. exists []. split; [simpl; lia|]. by rewrite dispatcher_printed_nil.
Qed.

Lemma dispatcher_try_record_line (r : record) (w : World) :
  ∃ lines, length lines ≤ 1 ∧ try_record r w = (Ok tt, dispatcher_printed lines w).
Proof.
  unfold try_record, try_except. unfold bind at 1. unfold field.
  destruct (eventName r) as [name|]; [|eexists [_]; split; [simpl; lia | done]].
  cbn [ret]. destruct (String.eqb name "INSERT");
    [|exists []; split; [simpl; lia | by rewrite dispatcher_printed_nil]].
  unfold process_insert_event.
  destruct (extracted_table_name r) as [t|] eqn:Ht.
  2:{ destruct (table_name_of_None (W:=World) r Ht) as [e He].
      rewrite (bind_raise _ _ _ _ _ (He w)). eexists [_]. split; [simpl; lia | done]. }
  rewrite (bind_ok _ _ _ _ _ (table_name_of_Some r t w Ht)).
  destruct (new_image r) as [img|] eqn:Hi.
  2:{ destruct (new_image_of_None (W:=World) r Hi) as [e He].
      rewrite (bind_raise _ _ _ _ _ (He w)). eexists [_]. split; [simpl; lia | done]. }
  rewrite (bind_ok _ _ _ _ _ (new_image_of_Some r img w Hi)).
  destruct (notification_one_line t img w) as [[e ->] | (lines & Hl & ->)].
  - eexists [_]. split; [simpl; lia | done].
  - by exists lines.
Qed.

(** X16.  The dispatcher's log: the line counting the records, then at
    most one line for each record (the notification that would be sent, or
    the error that was caught), and nothing else. *)
Theorem dispatcher_log (batch : list record) (w : World) :
  ∃ lines,
    length lines ≤ length batch
    ∧ lambda_handler {| Records := Some batch |} w
      = (Ok dispatcher_ack,
         dispatcher_printed
           (("Processing " +:+ pretty (length batch) +:+ " records") :: lines) w).
Proof.
  unfold lambda_handler. simpl. unfold bind at 1. simpl.
  unfold bind at 1. rewrite print_printed.
  set (w0 := dispatcher_printed _ w).
  assert (H : ∃ lines, length lines ≤ length batch
                       ∧ for_each batch try_record w0
                         = (Ok tt, dispatcher_printed lines w0)).
  { generalize w0. clear. induction batch as [|r batch IH]; intros w0; simpl.
    - exists []. split; [done|]. by rewrite dispatcher_printed_nil.
    - destruct (dispatcher_try_record_line r w0) as (l1 & Hl1 & H1).
      rewrite (bind_ok _ _ _ _ _ H1).
      destruct (IH (dispatcher_printed l1 w0)) as (l2 & Hl2 & ->).
      exists (l1 ++ l2). rewrite length_app, dispatcher_printed_app.
      split; [lia | done]. }
  destruct H as (lines & Hl & H). exists lines. split; [done|].
  unfold bind. rewrite H. unfold ret, w0. by rewrite dispatcher_printed_app.
Qed.

End Notifications.

(* ===================================================================== *)
(** * The deployer: create, then poll *)
(* ===================================================================== *)

Section Deployer.
Import Py AmplifyDeployer Observe.

(** ** Calls *)

Lemma call_world {A} (c : ApiCall) (serve : Services → result A * Services)
    (w : World) :
  api_calls (snd (call c serve w)) = api_calls w ++ [c]
  ∧ helper_Data (snd (call c serve w)) = helper_Data w
  ∧ log (snd (call c serve w)) = log w
  ∧ api_fault (snd (call c serve w)) = api_fault w
  ∧ info_enabled (snd (call c serve w)) = info_enabled w.
Proof.
  unfold call. destruct (api_fault w _); [done|]. by destruct (serve (services w)).
Qed.

Lemma call_fault {A} (c : ApiCall) (serve : Services → result A * Services)
    (w : World) (msg : string) :
  api_fault w (length (api_calls w)) = Some msg →
  call c serve w
  = (Raise (ClientError msg),
     {| services := services w; api_calls := api_calls w ++ [c];
        api_fault := api_fault w; helper_Data := helper_Data w;
        info_enabled := info_enabled w; log := log w |}).
Proof. unfold call. by intros ->. Qed.

(** ** Polling *)

(** X17.  A poll whose carried data lacks an identifier raises the
    [KeyError] of the first one missing, in the order AppId, BranchName,
    JobId, before any call is issued or line logged. *)
Theorem poll_missing_identifier (event : gmap string (gmap string string)) (w : World) :
  match carried event "AppId", carried event "BranchName", carried event "JobId" with
  | None, _, _ => poll event w = (Raise (KeyError "AppId"), w)
  | Some _, None, _ => poll event w = (Raise (KeyError "BranchName"), w)
  | Some _, Some _, None => poll event w = (Raise (KeyError "JobId"), w)
  | Some a, Some b, Some j =>
      api_calls (snd (poll event w)) = api_calls w ++ [Amplify_get_job a b j]
  end.
Proof.
  destruct (carried event "AppId") as [a|] eqn:Ha;
    [|unfold carried in Ha; unfold poll, getitem, bind, raise; by rewrite Ha].
  destruct (carried event "BranchName") as [b|] eqn:Hb;
    [|unfold carried in Ha, Hb; unfold poll, getitem, bind, ret, raise;
      by rewrite Ha, Hb].
  destruct (carried event "JobId") as [j|] eqn:Hj;
    [|unfold carried in Ha, Hb, Hj; unfold poll, getitem, bind, ret, raise;
      by rewrite Ha, Hb, Hj].
  rewrite (poll_unfold event a b j w Ha Hb Hj).
  pose proof (amplify_get_job_world a b j w) as Hw.
  destruct (amplify_get_job a b j w) as [[status|e] w1]; simpl in Hw; subst w1; [|done].
  simpl. destruct (String.eqb status "SUCCEED"); [done|]. by destruct (bool_decide _).
Qed.

(** X18.  A poll whose status query fails in transit lets the exception
    through: it raises what the call raised, logs nothing, and so signals
    neither success nor "continue". *)
Theorem poll_query_failure (event : gmap string (gmap string string))
    (a b j msg : string) (w : World) :
  carried event "AppId" = Some a →
  carried event "BranchName" = Some b →
  carried event "JobId" = Some j →
  api_fault w (length (api_calls w)) = Some msg →
  fst (poll event w) = Raise (ClientError msg)
  ∧ api_calls (snd (poll event w)) = api_calls w ++ [Amplify_get_job a b j]
  ∧ log (snd (poll event w)) = log w
  ∧ services (snd (poll event w)) = services w.
Proof.
  intros Ha Hb Hj Hf. rewrite (poll_unfold event a b j w Ha Hb Hj).
  unfold amplify_get_job. by rewrite (call_fault _ _ w msg Hf).
Qed.

Lemma poll_query_failure_witness :
  fst (poll Fixtures.poll_event
         {| services := services (Fixtures.deployer_world "RUNNING");
            api_calls := []; api_fault := λ _, Some "ThrottlingException";
            helper_Data := ∅; info_enabled := true; log := [] |})
  = Raise (ClientError "ThrottlingException").
Proof.
  exact (proj1 (poll_query_failure Fixtures.poll_event "d1a2b3" "main" "7"
                  "ThrottlingException"
                  {| services := services (Fixtures.deployer_world "RUNNING");
                     api_calls := []; api_fault := λ _, Some "ThrottlingException";
                     helper_Data := ∅; info_enabled := true; log := [] |}
                  eq_refl eq_refl eq_refl eq_refl)).
Defined.

(** X19.  What a poll's answer says about the job.  [True] is returned
    only for a job whose status is "SUCCEED", [None] only for a job whose
    status is "PENDING", "PROVISIONING" or "RUNNING", and [False] never; a
    [RuntimeError] is raised only for a job the service knows, with a status
    outside those four, and its message names that status. *)
Theorem poll_answer_sound (event : gmap string (gmap string string)) (w : World) :
  let status_of a b j := jobs (services w) !! (a, b, j) in
  let job_status s :=
    ∃ a b j, carried event "AppId" = Some a ∧ carried event "BranchName" = Some b
             ∧ carried event "JobId" = Some j ∧ status_of a b j = Some s in
  (fst (poll event w) = Ok (Some true) → job_status "SUCCEED")
  ∧ (fst (poll event w) = Ok None →
     ∃ s, job_status s ∧ s ∈ ["PENDING"; "PROVISIONING"; "RUNNING"])
  ∧ fst (poll event w) ≠ Ok (Some false)
  ∧ (∀ msg, fst (poll event w) = Raise (RuntimeError msg) →
            ∃ s, job_status s ∧ msg = "Deployment failed: " +:+ s
                 ∧ s ∉ ["SUCCEED"; "PENDING"; "PROVISIONING"; "RUNNING"]).
Proof.
  intros status_of job_status.
  pose proof (poll_missing_identifier event w) as Hmiss.
  destruct (carried event "AppId") as [a|] eqn:Ha;
    [|rewrite Hmiss; by repeat split].
  destruct (carried event "BranchName") as [b|] eqn:Hb;
    [|rewrite Hmiss; by repeat split].
  destruct (carried event "JobId") as [j|] eqn:Hj;
    [|rewrite Hmiss; by repeat split].
  clear Hmiss. rewrite (poll_unfold event a b j w Ha Hb Hj).
  unfold amplify_get_job, call.
  destruct (api_fault w (length (api_calls w))); [by repeat split|].
  destruct (jobs (services w) !! (a, b, j)) as [s|] eqn:Hs; [|by repeat split].
  assert (Hjob : job_status s) by (by exists a, b, j).
  cbn [fst snd]. destruct (String.eqb_spec s "SUCCEED") as [->|Hne].
  { by repeat split. }
  destruct (bool_decide (s ∈ ["PENDING"; "PROVISIONING"; "RUNNING"])) eqn:Hin.
  - apply bool_decide_eq_true_1 in Hin. repeat split; try done.
    intros _. by exists s.
  - apply bool_decide_eq_false_1 in Hin. repeat split; try done.
    intros msg [= <-]. exists s. repeat split; [done|].
    intros [->|Hx]%elem_of_cons; done.
Qed.

(** ** Creating *)

(** A call that gets through: the service answers and moves on. *)
Lemma call_step {A} (c : ApiCall) (serve : Services → result A * Services)
    (w : World) (answer : result A) (s' : Services) :
  api_fault w (length (api_calls w)) = None →
  serve (services w) = (answer, s') →
  ∃ w1, call c serve w = (answer, w1)
        ∧ services w1 = s'
        ∧ api_calls w1 = api_calls w ++ [c]
        ∧ api_fault w1 = api_fault w
        ∧ helper_Data w1 = helper_Data w.
Proof. unfold call. intros -> ->. by eexists. Qed.

Lemma logger_info_step (line : string) (w : World) :
  ∃ w1, logger_info line w = (Ok tt, w1)
        ∧ services w1 = services w
        ∧ api_calls w1 = api_calls w
        ∧ api_fault w1 = api_fault w
        ∧ helper_Data w1 = helper_Data w.
Proof. by eexists. Qed.

Lemma helper_Data_set_step (k v : string) (w : World) :
  ∃ w1, helper_Data_set k v w = (Ok tt, w1)
        ∧ services w1 = services w
        ∧ api_calls w1 = api_calls w
        ∧ api_fault w1 = api_fault w
        ∧ helper_Data w1 = <[k := v]> (helper_Data w).
Proof. by eexists. Qed.

(** X20.  [create_or_update] with its four properties present, the
    bundle in the bucket and every call getting through: it issues, in this
    order, the download, the creation of the deployment, the upload of the
    bundle to the URL the service handed out, and the start of the job the
    service handed out; then it stores the job id, the application id and
    the branch name in [helper.Data]. *)
Theorem create_or_update_success (event : gmap string (gmap string string))
    (a b bucket key zip : string) (w : World) :
  resource_property event "AppId" = Some a →
  resource_property event "BranchName" = Some b →
  resource_property event "SourceBucket" = Some bucket →
  resource_property event "SourceKey" = Some key →
  s3_objects (services w) !! (bucket, key) = Some zip →
  (∀ i, i < 4 → api_fault w (length (api_calls w) + i) = None) →
  let reply := handout (services w) (size (jobs (services w))) in
  fst (create_or_update event w) = Ok tt
  ∧ api_calls (snd (create_or_update event w))
    = api_calls w ++ [ S3_get_object bucket key;
                       Amplify_create_deployment a b;
                       Http_put (fst reply) zip;
                       Amplify_start_deployment a b (snd reply) ]
  ∧ helper_Data (snd (create_or_update event w))
    = <["BranchName" := b]> (<["AppId" := a]> (<["JobId" := snd reply]> (helper_Data w))).
Proof.
  intros Ha Hb Hbucket Hkey Hzip Hok reply.
  unfold resource_property in *. unfold create_or_update.
  rewrite (bind_ok _ _ _ _ _ (getitem_Some _ "AppId" a w Ha)).
  rewrite (bind_ok _ _ _ _ _ (getitem_Some _ "BranchName" b w Hb)).
  rewrite (bind_ok _ _ _ _ _ (getitem_Some _ "SourceBucket" bucket w Hbucket)).
  rewrite (bind_ok _ _ _ _ _ (getitem_Some _ "SourceKey" key w Hkey)).
  (* the download *)
  destruct (logger_info_step ("Downloading source from s3://" +:+ bucket +:+ "/"
                              +:+ key) w) as (w1 & H1 & Hs1 & Hc1 & Hf1 & Hd1).
  rewrite (bind_ok _ _ _ _ _ H1).
  destruct (call_step (S3_get_object bucket key)
              (λ s, match s3_objects s !! (bucket, key) with
                    | Some body => (Ok body, s)
                    | None => (Raise (ClientError "NoSuchKey"), s)
                    end) w1 (Ok zip) (services w1))
    as (w2 & H2 & Hs2 & Hc2 & Hf2 & Hd2).
  { rewrite Hf1, Hc1, <- (Nat.add_0_r (length (api_calls w))). apply Hok. lia. }
  { by rewrite Hs1, Hzip. }
  unfold s3_get_object. rewrite (bind_ok _ _ _ _ _ H2).
  (* the deployment *)
  destruct (logger_info_step ("Creating deployment for app " +:+ a +:+ ", branch "
                              +:+ b) w2) as (w3 & H3 & Hs3 & Hc3 & Hf3 & Hd3).
  rewrite (bind_ok _ _ _ _ _ H3).
  destruct (call_step (Amplify_create_deployment a b)
              (λ s, let reply := handout s (size (jobs s)) in
                    (Ok reply,
                     {| s3_objects := s3_objects s;
                        jobs := <[(a, b, snd reply) := "CREATED"]> (jobs s);
                        uploads := uploads s; handout := handout s |}))
              w3 _ _ ltac:(rewrite Hf3, Hf2, Hf1, Hc3, Hc2, Hc1, length_app;
                           apply Hok; simpl; lia) eq_refl)
    as (w4 & H4 & Hs4 & Hc4 & Hf4 & Hd4).
  unfold amplify_create_deployment. rewrite (bind_ok _ _ _ _ _ H4).
  assert (Hreply : handout (services w3) (size (jobs (services w3))) = reply)
    by (by rewrite Hs3, Hs2, Hs1).
  rewrite Hreply in *. cbn [fst snd].
  (* the upload *)
  destruct (logger_info_step ("Uploading " +:+ pretty (String.length zip)
                              +:+ " bytes to Amplify") w4)
    as (w5 & H5 & Hs5 & Hc5 & Hf5 & Hd5).
  rewrite (bind_ok _ _ _ _ _ H5).
  destruct (call_step (Http_put (fst reply) zip)
              (λ s, (Ok tt,
                     {| s3_objects := s3_objects s; jobs := jobs s;
                        uploads := <[fst reply := zip]> (uploads s);
                        handout := handout s |}))
              w5 _ _ ltac:(rewrite Hf5, Hf4, Hf3, Hf2, Hf1, Hc5, Hc4, Hc3, Hc2, Hc1,
                             <- app_assoc, length_app; apply Hok; simpl; lia) eq_refl)
    as (w6 & H6 & Hs6 & Hc6 & Hf6 & Hd6).
  unfold http_put. rewrite (bind_ok _ _ _ _ _ H6).
  (* the start *)
  destruct (logger_info_step ("Starting deployment job " +:+ snd reply) w6)
    as (w7 & H7 & Hs7 & Hc7 & Hf7 & Hd7).
  rewrite (bind_ok _ _ _ _ _ H7).
  destruct (call_step (Amplify_start_deployment a b (snd reply))
              (λ s, match jobs s !! (a, b, snd reply) with
                    | Some _ =>
                        (Ok tt,
                         {| s3_objects := s3_objects s;
                            jobs := <[(a, b, snd reply) := "PENDING"]> (jobs s);
                            uploads := uploads s; handout := handout s |})
                    | None => (Raise (ClientError "NotFoundException"), s)
                    end) w7 (Ok tt)
              {| s3_objects := s3_objects (services w7);
                 jobs := <[(a, b, snd reply) := "PENDING"]> (jobs (services w7));
                 uploads := uploads (services w7);
                 handout := handout (services w7) |})
    as (w8 & H8 & Hs8 & Hc8 & Hf8 & Hd8).
  { rewrite Hf7, Hf6, Hf5, Hf4, Hf3, Hf2, Hf1, Hc7, Hc6, Hc5, Hc4, Hc3, Hc2, Hc1,
      <- !app_assoc, length_app. apply Hok. simpl. lia. }
  { rewrite Hs7, Hs6. cbn [jobs]. rewrite Hs5, Hs4. cbn [jobs].
    by rewrite lookup_insert_eq. }
  unfold amplify_start_deployment. rewrite (bind_ok _ _ _ _ _ H8).
  (* the data *)
  destruct (helper_Data_set_step "JobId" (snd reply) w8)
    as (w9 & H9 & Hs9 & Hc9 & Hf9 & Hd9).
  rewrite (bind_ok _ _ _ _ _ H9).
  destruct (helper_Data_set_step "AppId" a w9) as (w10 & H10 & Hs10 & Hc10 & Hf10 & Hd10).
  rewrite (bind_ok _ _ _ _ _ H10).
  destruct (helper_Data_set_step "BranchName" b w10)
    as (w11 & H11 & Hs11 & Hc11 & Hf11 & Hd11).
  rewrite H11. cbn [fst snd]. split; [done|]. split.
  - rewrite Hc11, Hc10, Hc9, Hc8, Hc7, Hc6, Hc5, Hc4, Hc3, Hc2, Hc1.
    by rewrite <- !app_assoc.
  - by rewrite Hd11, Hd10, Hd9, Hd8, Hd7, Hd6, Hd5, Hd4, Hd3, Hd2, Hd1.
Qed.

Lemma create_or_update_success_witness :
  fst (create_or_update Fixtures.create_event Fixtures.fresh_world) = Ok tt
  ∧ helper_Data (snd (create_or_update Fixtures.create_event Fixtures.fresh_world))
      !! "JobId" = Some "7".
Proof.
  destruct (create_or_update_success Fixtures.create_event
              "d1a2b3" "main" "artifacts" "frontend.zip" "PK-bundle"
              Fixtures.fresh_world eq_refl eq_refl eq_refl eq_refl eq_refl
              (λ _ _, eq_refl))
    as (H & _ & Hd).
  split; [exact H|]. rewrite Hd. vm_compute. reflexivity.
Defined.

(** Each operation on a service records its call and leaves
    [helper.Data] alone. *)
Lemma s3_get_object_world (bucket key : string) (w : World) :
  api_calls (snd (s3_get_object bucket key w)) = api_calls w ++ [S3_get_object bucket key]
  ∧ helper_Data (snd (s3_get_object bucket key w)) = helper_Data w.
Proof. unfold s3_get_object. by destruct (call_world (S3_get_object bucket key)
         (λ s, match s3_objects s !! (bucket, key) with
               | Some body => (Ok body, s)
               | None => (Raise (ClientError "NoSuchKey"), s)
               end) w) as (? & ? & _). Qed.

Lemma amplify_create_deployment_world (a b : string) (w : World) :
  api_calls (snd (amplify_create_deployment a b w))
  = api_calls w ++ [Amplify_create_deployment a b]
  ∧ helper_Data (snd (amplify_create_deployment a b w)) = helper_Data w.
Proof.
  unfold amplify_create_deployment, call.
  by destruct (api_fault w (length (api_calls w))).
Qed.

Lemma http_put_world (url data : string) (w : World) :
  api_calls (snd (http_put url data w)) = api_calls w ++ [Http_put url data]
  ∧ helper_Data (snd (http_put url data w)) = helper_Data w.
Proof.
  unfold http_put, call. by destruct (api_fault w (length (api_calls w))).
Qed.

Lemma amplify_start_deployment_world (a b j : string) (w : World) :
  api_calls (snd (amplify_start_deployment a b j w))
  = api_calls w ++ [Amplify_start_deployment a b j]
  ∧ helper_Data (snd (amplify_start_deployment a b j w)) = helper_Data w.
Proof.
  unfold amplify_start_deployment, call.
  destruct (api_fault w (length (api_calls w))); [done|].
  by destruct (jobs (services w) !! (a, b, j)).
Qed.

(** Every run of [create_or_update] either raises with [helper.Data] as
    it was, or returns after a last call that starts the very job whose
    identifiers it has put into [helper.Data]. *)
Lemma create_or_update_cases (event : gmap string (gmap string string)) (w : World) :
  (∃ e, fst (create_or_update event w) = Raise e
        ∧ helper_Data (snd (create_or_update event w)) = helper_Data w)
  ∨ (∃ a b j calls,
       resource_property event "AppId" = Some a
       ∧ resource_property event "BranchName" = Some b
       ∧ fst (create_or_update event w) = Ok tt
       ∧ api_calls (snd (create_or_update event w))
         = calls ++ [Amplify_start_deployment a b j]
       ∧ helper_Data (snd (create_or_update event w))
         = <["BranchName" := b]> (<["AppId" := a]> (<["JobId" := j]> (helper_Data w)))).
Proof.
  unfold resource_property, create_or_update.
  destruct (get event "ResourceProperties" ∅ !! "AppId") as [a|] eqn:Ha;
    [rewrite (bind_ok _ _ _ _ _ (getitem_Some _ _ a w Ha))
    |rewrite (bind_raise _ _ _ _ _ (getitem_None _ _ w Ha)); left; by eexists].
  destruct (get event "ResourceProperties" ∅ !! "BranchName") as [b|] eqn:Hb;
    [rewrite (bind_ok _ _ _ _ _ (getitem_Some _ _ b w Hb))
    |rewrite (bind_raise _ _ _ _ _ (getitem_None _ _ w Hb)); left; by eexists].
  destruct (get event "ResourceProperties" ∅ !! "SourceBucket") as [bucket|] eqn:Hbu;
    [rewrite (bind_ok _ _ _ _ _ (getitem_Some _ _ bucket w Hbu))
    |rewrite (bind_raise _ _ _ _ _ (getitem_None _ _ w Hbu)); left; by eexists].
  destruct (get event "ResourceProperties" ∅ !! "SourceKey") as [key|] eqn:Hk;
    [rewrite (bind_ok _ _ _ _ _ (getitem_Some _ _ key w Hk))
    |rewrite (bind_raise _ _ _ _ _ (getitem_None _ _ w Hk)); left; by eexists].
  destruct (logger_info_step ("Downloading source from s3://" +:+ bucket +:+ "/"
                              +:+ key) w) as (w1 & H1 & _ & _ & _ & Hd1).
  rewrite (bind_ok _ _ _ _ _ H1).
  pose proof (s3_get_object_world bucket key w1) as (_ & Hd2).
  destruct (s3_get_object bucket key w1) as [[zip|e] w2] eqn:H2; cbn [snd] in Hd2;
    [rewrite (bind_ok _ _ _ _ _ H2)
    |rewrite (bind_raise _ _ _ _ _ H2); left; exists e; split; [done | cbn [snd]; congruence]].
  destruct (logger_info_step ("Creating deployment for app " +:+ a +:+ ", branch "
                              +:+ b) w2) as (w3 & H3 & _ & _ & _ & Hd3).
  rewrite (bind_ok _ _ _ _ _ H3).
  pose proof (amplify_create_deployment_world a b w3) as (_ & Hd4).
  destruct (amplify_create_deployment a b w3) as [[reply|e] w4] eqn:H4;
    cbn [snd] in Hd4;
    [rewrite (bind_ok _ _ _ _ _ H4)
    |rewrite (bind_raise _ _ _ _ _ H4); left; exists e; split; [done | cbn [snd]; congruence]].
  cbv zeta.
  destruct (logger_info_step ("Uploading " +:+ pretty (String.length zip)
                              +:+ " bytes to Amplify") w4)
    as (w5 & H5 & _ & _ & _ & Hd5).
  rewrite (bind_ok _ _ _ _ _ H5).
  pose proof (http_put_world (fst reply) zip w5) as (_ & Hd6).
  destruct (http_put (fst reply) zip w5) as [[[]|e] w6] eqn:H6; cbn [snd] in Hd6;
    [rewrite (bind_ok _ _ _ _ _ H6)
    |rewrite (bind_raise _ _ _ _ _ H6); left; exists e; split; [done | cbn [snd]; congruence]].
  destruct (logger_info_step ("Starting deployment job " +:+ snd reply) w6)
    as (w7 & H7 & _ & _ & _ & Hd7).
  rewrite (bind_ok _ _ _ _ _ H7).
  pose proof (amplify_start_deployment_world a b (snd reply) w7) as (Hc8 & Hd8).
  destruct (amplify_start_deployment a b (snd reply) w7) as [[[]|e] w8] eqn:H8;
    cbn [snd] in Hc8, Hd8;
    [rewrite (bind_ok _ _ _ _ _ H8)
    |rewrite (bind_raise _ _ _ _ _ H8); left; exists e; split; [done | cbn [snd]; congruence]].
  right. exists a, b, (snd reply), (api_calls w7).
  split; [done|]. split; [done|].
  unfold bind, helper_Data_set. cbn [fst snd api_calls helper_Data].
  split; [done|]. split; [done|]. congruence.
Qed.

(** X21.  [create_or_update] writes [helper.Data] last.  Whenever it
    raises (a property missing, the bundle missing, a call failing, the
    upload failing) [helper.Data] is what it was, so no identifiers are
    handed to the poll for a job that was not started.  When one of its
    four properties is missing it raises a [KeyError] naming a missing
    property before any call is issued or line logged. *)
Theorem create_or_update_failure (event : gmap string (gmap string string)) (w : World) :
  (∀ e, fst (create_or_update event w) = Raise e →
        helper_Data (snd (create_or_update event w)) = helper_Data w)
  ∧ ((∃ k, k ∈ ["AppId"; "BranchName"; "SourceBucket"; "SourceKey"]
           ∧ resource_property event k = None) →
     ∃ k, create_or_update event w = (Raise (KeyError k), w)
          ∧ resource_property event k = None).
Proof.
  split.
  - intros e He.
    destruct (create_or_update_cases event w) as [(e' & _ & Hd) | (a & b & j & c & H)];
      [done|].
    destruct H as (_ & _ & Hok & _). rewrite Hok in He. discriminate He.
  - intros (k & Hk & Hnone). unfold resource_property in *. unfold create_or_update.
    destruct (get event "ResourceProperties" ∅ !! "AppId") as [a|] eqn:Ha;
      [rewrite (bind_ok _ _ _ _ _ (getitem_Some _ _ a w Ha))
      |rewrite (bind_raise _ _ _ _ _ (getitem_None _ _ w Ha)); by eexists].
    destruct (get event "ResourceProperties" ∅ !! "BranchName") as [b|] eqn:Hb;
      [rewrite (bind_ok _ _ _ _ _ (getitem_Some _ _ b w Hb))
      |rewrite (bind_raise _ _ _ _ _ (getitem_None _ _ w Hb)); by eexists].
    destruct (get event "ResourceProperties" ∅ !! "SourceBucket") as [bucket|] eqn:Hbu;
      [rewrite (bind_ok _ _ _ _ _ (getitem_Some _ _ bucket w Hbu))
      |rewrite (bind_raise _ _ _ _ _ (getitem_None _ _ w Hbu)); by eexists].
    destruct (get event "ResourceProperties" ∅ !! "SourceKey") as [key|] eqn:Hkey;
      [|rewrite (bind_raise _ _ _ _ _ (getitem_None _ _ w Hkey)); by eexists].
    exfalso.
    repeat (apply elem_of_cons in Hk as [-> | Hk]; [congruence|]).
    by apply elem_of_nil in Hk.
Qed.

Lemma create_or_update_failure_witness :
  ∃ k, create_or_update ∅ Fixtures.fresh_world = (Raise (KeyError k), Fixtures.fresh_world).
Proof.
  destruct (proj2 (create_or_update_failure ∅ Fixtures.fresh_world))
    as (k & H & _).
  - exists "AppId". split; [repeat constructor | reflexivity].
  - exists k. exact H.
Defined.

(** X22.  From create to poll.  When [create_or_update] returns, the
    [helper.Data] it leaves holds the three identifiers a poll subscripts,
    and they name the job of its last call, the start of the deployment: a
    poll carrying that data queries exactly the job that was started and
    never fails on a missing identifier. *)
Theorem create_then_poll_same_job (event : gmap string (gmap string string))
    (w : World) :
  fst (create_or_update event w) = Ok tt →
  ∃ a b j,
    last (api_calls (snd (create_or_update event w)))
    = Some (Amplify_start_deployment a b j)
    ∧ resource_property event "AppId" = Some a
    ∧ resource_property event "BranchName" = Some b
    ∧ ∀ (poll_event : gmap string (gmap string string)) (v : World),
        poll_event !! "CrHelperData"
        = Some (helper_Data (snd (create_or_update event w))) →
        api_calls (snd (poll poll_event v)) = api_calls v ++ [Amplify_get_job a b j].
Proof.
  intros Hok.
  destruct (create_or_update_cases event w)
    as [(e & He & _) | (a & b & j & calls & Ha & Hb & _ & Hc & Hd)];
    [rewrite He in Hok; discriminate Hok|].
  exists a, b, j. split; [by rewrite Hc, last_snoc|]. do 2 (split; [done|]).
  intros poll_event v Hdata.
  assert (Hcar : ∀ k, carried poll_event k
                      = helper_Data (snd (create_or_update event w)) !! k).
  { intros k. unfold carried, get. by rewrite Hdata. }
  pose proof (poll_missing_identifier poll_event v) as H.
  rewrite !Hcar, Hd in H.
  rewrite lookup_insert_ne, lookup_insert_eq in H by done.
  rewrite lookup_insert_eq in H.
  rewrite !lookup_insert_ne, lookup_insert_eq in H by done.
  exact H.
Qed.

Lemma create_then_poll_same_job_witness :
  ∃ a b j,
    last (api_calls (snd (create_or_update Fixtures.create_event Fixtures.fresh_world)))
    = Some (Amplify_start_deployment a b j)
    ∧ j = "7".
Proof.
  destruct (create_then_poll_same_job Fixtures.create_event Fixtures.fresh_world)
    as (a & b & j & Hl & _).
  - vm_compute. reflexivity.
  - exists a, b, j. split; [exact Hl|].
    vm_compute in Hl. injection Hl as _ _ H. symmetry. exact H.
Defined.

End Deployer.
